(** * react-redux-component-init: the [initComponent] thunk

    A shallow embedding of [initComponent] (the decision switch on [caller],
    the prepare validation and the promise chain that runs [initAction] and
    [initActionClient]) and of the [PrepareValidationError] class, followed
    by the properties of the decision table, of the validation errors and of
    the start/end notifications.

    Promises are modelled by a small state-and-outcome monad over the trace
    of the effects of one invocation: a promise either fulfills, rejects or
    stays pending, and a [then] callback only runs on fulfilment. *)

From Stdlib Require Import String List ZArith Bool.
From stdpp Require Import base strings gmap.

Set Warnings "-register-all".
Local Open Scope string_scope.
Local Open Scope list_scope.

(** ** JavaScript values *)

Inductive error_class :=
| ErrorC
| TypeErrorC
| ReferenceErrorC
| PrepareValidationErrorC.

(** Values without a callable [then] property.  Error objects carry their
    class, their [message] and the truthiness of their
    [isInvalidReturnError] property.  Thenables are kept apart, see
    [returned]. *)
Inductive jsval :=
| VUndefined
| VNull
| VBool (b : bool)
| VNumber (n : Z)
| VString (s : string)
| VArray (elems : list jsval)
| VFunction (id : nat)
| VError (cls : error_class) (message : string) (isInvalidReturnError : bool).

(** The [typeof] operator. *)
Definition typeof (v : jsval) : string :=
  match v with
  | VUndefined => "undefined"
  | VNull => "object"
  | VBool _ => "boolean"
  | VNumber _ => "number"
  | VString _ => "string"
  | VArray _ => "object"
  | VFunction _ => "function"
  | VError _ _ _ => "object"
  end.

Definition is_nullish (v : jsval) : bool :=
  match v with
  | VUndefined | VNull => true
  | _ => false
  end.

(** Reading a property of [undefined] or [null] throws a [TypeError]; the
    text of its message is the host's. *)
Definition TypeError_read (prop : string) (v : jsval) : jsval :=
  VError TypeErrorC
    ("Cannot read properties of "
       +:+ (match v with VNull => "null" | _ => "undefined" end)
       +:+ " (reading '" +:+ prop +:+ "')")
    false.

(** [e.isInvalidReturnError], as a truth value: [inl] is the [TypeError] of
    reading a property of [undefined] or [null]. *)
Definition get_isInvalidReturnError (e : jsval) : jsval + bool :=
  match e with
  | VUndefined | VNull => inl (TypeError_read "isInvalidReturnError" e)
  | VError _ _ flag => inr flag
  | _ => inr false
  end.

Definition object := list (string * jsval).

Definition nl : string := String (Ascii.ascii_of_nat 10) EmptyString.
Definition dquote : string := String (Ascii.ascii_of_nat 34) EmptyString.

(** ** What an action hands back *)

(** How a thenable settles, as the promise that adopts it sees it. *)
Inductive settlement :=
| Resolves (v : jsval)
| Rejects (e : jsval)
| NeverSettles.

(** The value returned by a call: a plain value (no [then] method) or a
    thenable. *)
Inductive returned :=
| Plain (v : jsval)
| Thenable (s : settlement).

(** [Promise.resolve(v)] *)
Definition Promise_resolve (v : jsval) : returned := Thenable (Resolves v).

Inductive completion :=
| Throws (e : jsval)
| Returns (r : returned).

(** ** Effects of one invocation *)

Inductive which := InitAction | InitActionClient.

Record payload := {
  complete : bool;
  isPrepare : bool;
  prepareKey : string
}.

Record redux_action := {
  type : string;
  payload_of : payload
}.

Inductive event :=
| Dispatch (a : redux_action)
| Call (w : which) (props : object)
| Resolved (w : which) (v : jsval)
| OnError (e : jsval).

Definition trace := list event.

(** [initAction(initPropsObj, dispatch, getState)]: the history of the
    invocation stands for what the two capabilities let the action see. *)
Definition action := object -> trace -> completion.

(** [onError(e)]: [None] when the handler returns, [Some h] when it throws
    [h]. *)
Definition handler := jsval -> option jsval.

(** ** Promises *)

Inductive settled (A : Type) :=
| Fulfilled (a : A)
| Rejected (e : jsval)
| Pending.
Arguments Fulfilled {A} a.
Arguments Rejected {A} e.
Arguments Pending {A}.

Definition promise (A : Type) := trace -> trace * settled A.

Definition ret {A} (a : A) : promise A := fun tr => (tr, Fulfilled a).
Definition throw {A} (e : jsval) : promise A := fun tr => (tr, Rejected e).
Definition never {A} : promise A := fun tr => (tr, Pending).

(** [p.then(f)] *)
Definition then_ {A B} (p : promise A) (f : A -> promise B) : promise B :=
  fun tr =>
    match p tr with
    | (tr', Fulfilled a) => f a tr'
    | (tr', Rejected e) => (tr', Rejected e)
    | (tr', Pending) => (tr', Pending)
    end.

(** [p.catch(h)] *)
Definition catch_ {A} (p : promise A) (h : jsval -> promise A) : promise A :=
  fun tr =>
    match p tr with
    | (tr', Fulfilled a) => (tr', Fulfilled a)
    | (tr', Rejected e) => h e tr'
    | (tr', Pending) => (tr', Pending)
    end.

Declare Scope promise_scope.
Delimit Scope promise_scope with promise.
Notation "x <- p ;; q" := (then_ p (fun x => q))
  (at level 100, p at next level, right associativity) : promise_scope.
Notation "p ;; q" := (then_ p (fun _ => q))
  (at level 100, right associativity) : promise_scope.

Definition emit (ev : event) : promise unit :=
  fun tr => (tr ++ [ev], Fulfilled tt).

Definition dispatch (a : redux_action) : promise unit := emit (Dispatch a).

(** Calling an action: the call is recorded, then the action throws or
    returns. *)
Definition call (w : which) (f : action) (props : object) : promise returned :=
  fun tr =>
    let tr' := tr ++ [Call w props] in
    match f props tr' with
    | Throws e => (tr', Rejected e)
    | Returns r => (tr', Fulfilled r)
    end.

(** Adopting the state of a thenable. *)
Definition await (w : which) (s : settlement) : promise jsval :=
  match s with
  | Resolves v => (emit (Resolved w v) ;; ret v)%promise
  | Rejects e => throw e
  | NeverSettles => never
  end.

(** [onError(e)] *)
Definition call_onError (h : handler) (e : jsval) : promise unit :=
  fun tr =>
    let tr' := tr ++ [OnError e] in
    match h e with
    | None => (tr', Fulfilled tt)
    | Some thrown => (tr', Rejected thrown)
    end.

(** ** Modes *)

(** Modelled from the spec: the constants of [initMode], not among the
    sources; the state's [mode] is one of PREPARE and INIT_SELF. *)
Inductive initMode := MODE_PREPARE | MODE_INIT_SELF.

(** Modelled from the spec: the constants of [initSelfMode], not among the
    sources; the restriction level is one of NEVER, ASYNC and BLOCKING. *)
Inductive initSelfMode := INIT_SELF_NEVER | INIT_SELF_ASYNC | INIT_SELF_BLOCKING.

Definition initMode_eqb (a b : initMode) : bool :=
  match a, b with
  | MODE_PREPARE, MODE_PREPARE | MODE_INIT_SELF, MODE_INIT_SELF => true
  | _, _ => false
  end.

Definition initSelfMode_eqb (a b : initSelfMode) : bool :=
  match a, b with
  | INIT_SELF_NEVER, INIT_SELF_NEVER
  | INIT_SELF_ASYNC, INIT_SELF_ASYNC
  | INIT_SELF_BLOCKING, INIT_SELF_BLOCKING => true
  | _, _ => false
  end.

Record initState := {
  mode : initMode;
  prepared : gmap string bool
}.

(** The decision record: what the switch on [caller] sets. *)
Record decision := {
  errorNotPrepared : bool;
  shouldCallInitAction : bool;
  shouldCallInitActionClient : bool
}.

(** ** The init configuration of a component *)

Section Config.

(** The state of the store, read through [getState]. *)
Context {State : Type}.

Record options := {
  onError : option handler;
  getInitState : State -> option initState;
  initSelf : initSelfMode;
  allowLazy : bool
}.

Record initConfig := {
  componentId : string;
  initProps : list string;
  initAction : option action;
  initActionClient : option action;
  initActionObjectParam : bool;
  options_of : options
}.

Record component := {
  initConfig_of : option initConfig
}.

End Config.

Arguments options : clear implicits.
Arguments initConfig : clear implicits.
Arguments component : clear implicits.

(** ** PrepareValidationError.js *)

Definition ERROR_BASE_URL : string :=
  "https://mediamonks.github.io/react-redux-component-init/errors/".

(** [Array.prototype.join] on strings *)
Fixpoint join (sep : string) (parts : list string) : string :=
  match parts with
  | [] => EmptyString
  | [p] => p
  | p :: rest => p +:+ sep +:+ join sep rest
  end.

(** ** Sample components

    A store whose state is the init state itself, three kinds of action and
    two handlers; the properties below are run on them. *)

Definition resolves_with (v : jsval) : action :=
  fun _ _ => Returns (Thenable (Resolves v)).

Definition rejects_with (e : jsval) : action :=
  fun _ _ => Returns (Thenable (Rejects e)).

Definition returns_plain (v : jsval) : action :=
  fun _ _ => Returns (Plain v).

Definition quiet_handler : handler := fun _ => None.

Definition throwing_handler (thrown : jsval) : handler := fun _ => Some thrown.

Definition boom : jsval := VError ErrorC "boom" false.
Definition handler_failed : jsval := VError ErrorC "handler failed" false.

Definition sample_options (h : option handler) (s : initSelfMode) (lazy : bool)
  : options initState :=
  {| onError := h; getInitState := fun st => Some st; initSelf := s; allowLazy := lazy |}.

Definition sample_config (a b : option action) (o : options initState)
  : initConfig initState :=
  {| componentId := "Sample"; initProps := ["id"]; initAction := a;
     initActionClient := b; initActionObjectParam := false; options_of := o |}.

Definition sample_component (a b : option action) (o : options initState)
  : component initState :=
  {| initConfig_of := Some (sample_config a b o) |}.

Definition sample_key : string := "Sample[7]".
Definition sample_values : list jsval := [VNumber 7].

Definition init_self_state : initState :=
  {| mode := MODE_INIT_SELF; prepared := {[ sample_key := true ]} |}.

Definition prepare_state (p : gmap string bool) : initState :=
  {| mode := MODE_PREPARE; prepared := p |}.

(** A component whose [initAction] rejects with [boom], with the handler
    [h]; one whose [initAction] returns [v] as it is; one with two actions
    that resolve. *)
Definition failing_config (h : option handler) : initConfig initState :=
  sample_config (Some (rejects_with boom)) None (sample_options h INIT_SELF_ASYNC false).

Definition failing_component (h : option handler) : component initState :=
  {| initConfig_of := Some (failing_config h) |}.

Definition plain_component (v : jsval) (h : option handler) : component initState :=
  sample_component (Some (returns_plain v)) None (sample_options h INIT_SELF_ASYNC false).

Definition both_config : initConfig initState :=
  sample_config (Some (resolves_with (VString "P"))) (Some (resolves_with (VString "C")))
    (sample_options None INIT_SELF_ASYNC true).

Definition both_component : component initState :=
  {| initConfig_of := Some both_config |}.

Definition only_initAction : decision :=
  {| errorNotPrepared := false;
     shouldCallInitAction := true;
     shouldCallInitActionClient := false |}.

Definition both_actions : decision :=
  {| errorNotPrepared := false;
     shouldCallInitAction := true;
     shouldCallInitActionClient := true |}.

Definition sample_props : object := [("id", VNumber 7)].

(** An [initAction] whose promise never settles, one that throws, and a
    component whose [initActionClient] returns a number after [initAction]
    resolved. *)
Definition never_settles : action := fun _ _ => Returns (Thenable NeverSettles).

Definition throws_with (e : jsval) : action := fun _ _ => Throws e.

Definition hanging_config : initConfig initState :=
  sample_config (Some never_settles) None (sample_options None INIT_SELF_ASYNC false).

Definition hanging_component : component initState :=
  {| initConfig_of := Some hanging_config |}.

Definition client_plain_config : initConfig initState :=
  sample_config (Some (resolves_with (VString "P"))) (Some (returns_plain (VNumber 5)))
    (sample_options (Some quiet_handler) INIT_SELF_ASYNC true).

Definition client_plain_component : component initState :=
  {| initConfig_of := Some client_plain_config |}.

Definition never_config : initConfig initState :=
  sample_config (Some (resolves_with VNull)) (Some (resolves_with VNull))
    (sample_options None INIT_SELF_NEVER true).

Definition never_component : component initState :=
  {| initConfig_of := Some never_config |}.

Definition strict_config : initConfig initState :=
  sample_config (Some (resolves_with VNull)) None
    (sample_options None INIT_SELF_ASYNC false).

Definition strict_component : component initState :=
  {| initConfig_of := Some strict_config |}.

Definition zip_props (names : list string) (values : list jsval) : object :=
  combine names values.

Definition sample_stringify (o : object) : string :=
  "{" +:+ join "," (map fst o) +:+ "}".

Definition sample_encode (v : jsval) : string := typeof v.

Section InitComponent.

Context {State : Type}.

(** [propNameValuesToObject] of [utils], [JSON.stringify],
    [encodeURIComponent] and the [INIT_COMPONENT] action type are not among
    the sources: they are parameters of the development. *)
Variable propNameValuesToObject : list string -> list jsval -> object.
Variable JSON_stringify : object -> string.
Variable encodeURIComponent : jsval -> string.
Variable INIT_COMPONENT : string.

(** [new PrepareValidationError(message, errorId, meta)]: the link to the
    error page is appended when both [errorId] and [meta] are truthy (an
    empty [errorId] is not). *)
Definition PrepareValidationError
    (message : string) (errorId : option string) (meta : option object) : jsval :=
  VError PrepareValidationErrorC
    (match errorId, meta with
     | Some id, Some m =>
         if String.eqb id EmptyString then message
         else
           let metaString :=
             join "&" (map (fun kv => fst kv +:+ "=" +:+ encodeURIComponent (snd kv)) m) in
           message +:+ nl +:+ "For more information see: " +:+ nl
             +:+ ERROR_BASE_URL +:+ id +:+ ".html#" +:+ metaString
     | _, _ => message
     end)
    false.

(** ** The errors of [initComponent] *)

Definition MissingInitConfig : jsval :=
  VError ErrorC "No init config found on Component passed to initComponent" false.

Definition MissingInitState : jsval :=
  VError ReferenceErrorC
    "Could not find init state. Did you attach the init reducer?" false.

(** [`${caller}`] *)
Definition caller_to_string (caller : option string) : string :=
  match caller with
  | Some c => c
  | None => "undefined"
  end.

Definition InvalidCaller (caller : option string) : jsval :=
  VError ErrorC
    ("Unexpected value '" +:+ caller_to_string caller
       +:+ "' for caller. Expected one of: 'prepareComponent', 'didMount', 'willMount', 'willReceiveProps'")
    false.

Definition PreparationMissing (cfg : initConfig State) (initValues : list jsval) : jsval :=
  PrepareValidationError
    ("Expected component " +:+ dquote +:+ componentId cfg +:+ dquote
       +:+ " to be prepared but prepareComponent has not been called with props: "
       +:+ nl
       +:+ JSON_stringify (propNameValuesToObject (initProps cfg) initValues))
    None None.

Definition PreparationPending (cfg : initConfig State) : jsval :=
  PrepareValidationError
    ("Expected component " +:+ dquote +:+ componentId cfg +:+ dquote
       +:+ " to be prepared but preparation is still pending")
    None None.

(** The flagged error of an action that returned a value without [then];
    [label] is [initAction], [initAction.server] or [initAction.client]. *)
Definition InvalidActionReturn (label : string) (cfg : initConfig State) (v : jsval) : jsval :=
  VError ErrorC
    ("Expected " +:+ label +:+ " to return a Promise. Returned an "
       +:+ typeof v +:+ " instead. Check the initAction for "
       +:+ dquote +:+ componentId cfg +:+ dquote)
    true.

(** Calling [undefined] *)
Definition TypeError_not_a_function (name : string) : jsval :=
  VError TypeErrorC (name +:+ " is not a function") false.

(** ** The decision: the [switch (caller)] of [initComponent] *)

(** [!!x] for an optional function *)
Definition truthy {A} (x : option A) : bool :=
  match x with
  | Some _ => true
  | None => false
  end.

Definition caller_is (caller : option string) (name : string) : bool :=
  match caller with
  | Some c => String.eqb c name
  | None => false
  end.

(** Lines 51 to 97: [isPrepared] and the switch; [inl] is the error thrown
    by the [default] case. *)
Definition decide_caller
    (cfg : initConfig State) (st : initState) (key : string) (caller : option string)
  : jsval + decision :=
  let o := options_of cfg in
  let isPrepared :=
    match prepared st !! key with
    | Some _ => true
    | None => false
    end in
  if caller_is caller "prepareComponent" then
    inr {| errorNotPrepared := false;
           shouldCallInitAction := truthy (initAction cfg) && negb isPrepared;
           shouldCallInitActionClient := false |}
  else if caller_is caller "willMount" then
    inr {| errorNotPrepared :=
             truthy (initAction cfg) && initMode_eqb (mode st) MODE_PREPARE
               && negb (allowLazy o);
           shouldCallInitAction :=
             truthy (initAction cfg)
               && ((initMode_eqb (mode st) MODE_INIT_SELF
                      && negb (initSelfMode_eqb (initSelf o) INIT_SELF_NEVER)
                      && negb (allowLazy o))
                   || (initMode_eqb (mode st) MODE_PREPARE
                         && negb isPrepared && allowLazy o));
           shouldCallInitActionClient := false |}
  else if caller_is caller "didMount" then
    inr {| errorNotPrepared := false;
           shouldCallInitAction :=
             truthy (initAction cfg)
               && ((initMode_eqb (mode st) MODE_INIT_SELF
                      && negb (initSelfMode_eqb (initSelf o) INIT_SELF_NEVER)
                      && allowLazy o)
                   || (initMode_eqb (mode st) MODE_PREPARE
                         && negb isPrepared && allowLazy o));
           shouldCallInitActionClient :=
             truthy (initActionClient cfg)
               && negb (initSelfMode_eqb (initSelf o) INIT_SELF_NEVER) |}
  else if caller_is caller "willReceiveProps" then
    inr {| errorNotPrepared := false;
           shouldCallInitAction := truthy (initAction cfg);
           shouldCallInitActionClient := truthy (initActionClient cfg) |}
  else inl (InvalidCaller caller).

(** Lines 99 to 112: the error thrown when the component had to be
    prepared, if any. *)
Definition check_prepared
    (cfg : initConfig State) (initValues : list jsval) (st : initState) (key : string)
    (d : decision) : option jsval :=
  if errorNotPrepared d then
    match prepared st !! key with
    | None => Some (PreparationMissing cfg initValues)
    | Some false => Some (PreparationPending cfg)
    | Some true => None
    end
  else None.

(** ** The promise chain *)

Definition notification (isComplete callerIsPrepare : bool) (key : string) : redux_action :=
  {| type := INIT_COMPONENT;
     payload_of := {| complete := isComplete;
                      isPrepare := callerIsPrepare;
                      prepareKey := key |} |}.

(** [typeof r.then !== 'function'] and its two throws: the [TypeError] of
    reading [then] off [undefined] or [null], and the flagged error. *)
Definition expect_thenable (label : string) (cfg : initConfig State) (r : returned)
  : promise settlement :=
  match r with
  | Thenable s => ret s
  | Plain v =>
      if is_nullish v then throw (TypeError_read "then" v)
      else throw (InvalidActionReturn label cfg v)
  end.

(** [should ? f(initPropsObj, dispatch, getState) : Promise.resolve()] *)
Definition call_or_resolve
    (should : bool) (w : which) (name : string) (f : option action) (props : object)
  : promise returned :=
  if should then
    match f with
    | Some g => call w g props
    | None => throw (TypeError_not_a_function name)
    end
  else ret (Promise_resolve VUndefined).

(** Lines 130 to 146: the first [then] callback. *)
Definition run_initAction (cfg : initConfig State) (d : decision) (props : object)
  : promise jsval :=
  (initActionReturn <-
     call_or_resolve (shouldCallInitAction d) InitAction "initAction"
       (initAction cfg) props ;;
   s <- expect_thenable
          ("initAction" +:+ (if initActionObjectParam cfg then ".server" else EmptyString))
          cfg initActionReturn ;;
   await InitAction s)%promise.

(** Lines 147 to 167: the second [then] callback. *)
Definition run_initActionClient
    (cfg : initConfig State) (d : decision) (props : object) (serverValue : jsval)
  : promise jsval :=
  (initActionClientReturn <-
     call_or_resolve (shouldCallInitActionClient d) InitActionClient
       "initActionClient" (initActionClient cfg) props ;;
   s <- expect_thenable "initAction.client" cfg initActionClientReturn ;;
   clientValue <- await InitActionClient s ;;
   ret (if shouldCallInitAction d && shouldCallInitActionClient d
        then VArray [serverValue; clientValue]
        else if shouldCallInitAction d then serverValue else clientValue))%promise.

(** Lines 129 to 167: [Promise.resolve()] and the two callbacks. *)
Definition run_actions (cfg : initConfig State) (d : decision) (props : object)
  : promise jsval :=
  (serverValue <- (_ <- ret VUndefined ;; run_initAction cfg d props) ;;
   run_initActionClient cfg d props serverValue)%promise.

(** Lines 168 to 182: the [catch] callback. *)
Definition on_rejected
    (cfg : initConfig State) (callerIsPrepare : bool) (key : string) (e : jsval)
  : promise jsval :=
  match onError (options_of cfg) with
  | Some h =>
      match get_isInvalidReturnError e with
      | inl typeError => throw typeError
      | inr false => (call_onError h e ;; ret VUndefined)%promise
      | inr true =>
          (dispatch (notification true callerIsPrepare key) ;; throw e)%promise
      end
  | None => (dispatch (notification true callerIsPrepare key) ;; throw e)%promise
  end.

(** Lines 183 to 194: the last [then] callback. *)
Definition on_done (callerIsPrepare : bool) (key : string) (result : jsval)
  : promise jsval :=
  (dispatch (notification true callerIsPrepare key) ;; ret result)%promise.

(** ** initComponent *)

(** What the thunk does for its caller: it throws, or returns a promise,
    given here by how that promise ends up. *)
Inductive outcome :=
| Threw (e : jsval)
| Returned (p : settled jsval).

Definition initComponent
    (Component : component State) (initValues : list jsval) (key : string)
    (caller : option string) (getState : State) (tr : trace) : trace * outcome :=
  match initConfig_of Component with
  | None => (tr, Threw MissingInitConfig)
  | Some cfg =>
      let callerIsPrepare := caller_is caller "prepareComponent" in
      match getInitState (options_of cfg) getState with
      | None => (tr, Threw MissingInitState)
      | Some st =>
          match decide_caller cfg st key caller with
          | inl e => (tr, Threw e)
          | inr d =>
              match check_prepared cfg initValues st key d with
              | Some e => (tr, Threw e)
              | None =>
                  if negb (shouldCallInitAction d)
                       && negb (shouldCallInitActionClient d)
                  then (tr, Returned (Fulfilled VUndefined))
                  else
                    let initPropsObj :=
                      propNameValuesToObject (initProps cfg) initValues in
                    let started :=
                      fst (dispatch (notification false callerIsPrepare key) tr) in
                    let (tr', p) :=
                      then_
                        (catch_ (run_actions cfg d initPropsObj)
                                (on_rejected cfg callerIsPrepare key))
                        (on_done callerIsPrepare key)
                        started in
                    (tr', Returned p)
              end
          end
      end
  end.

(** ** Reading a trace *)

Definition dispatched (tr : trace) : list redux_action :=
  flat_map (fun ev => match ev with Dispatch a => [a] | _ => [] end) tr.

Definition onError_calls (tr : trace) : list jsval :=
  flat_map (fun ev => match ev with OnError e => [e] | _ => [] end) tr.

(** How many end notifications ([complete: true]) a trace holds. *)
Definition end_count (tr : trace) : nat :=
  length (List.filter (fun a => complete (payload_of a)) (dispatched tr)).

(** The order of the two actions in a trace: [initAction] is not called
    once its result has resolved, and [initActionClient] is not called
    before that.  [seen] tells whether the result of [initAction] (or its
    placeholder) has resolved so far. *)
Fixpoint ordered (seen : bool) (evs : trace) : bool :=
  match evs with
  | [] => true
  | Resolved InitAction _ :: rest => ordered true rest
  | Call InitAction _ :: rest => negb seen && ordered seen rest
  | Call InitActionClient _ :: rest => seen && ordered seen rest
  | _ :: rest => ordered seen rest
  end.

(** ** The words of the specification *)

(** The four trigger events and the strings that name them in the code. *)
Inductive caller_event := PREPARE_PASS | WILL_MOUNT | DID_MOUNT | WILL_RECEIVE_INPUTS.

Definition caller_name (c : caller_event) : string :=
  match c with
  | PREPARE_PASS => "prepareComponent"
  | WILL_MOUNT => "willMount"
  | DID_MOUNT => "didMount"
  | WILL_RECEIVE_INPUTS => "willReceiveProps"
  end.

(** The decision table of the specification, row by row. *)
Definition decision_table
    (c : caller_event) (m : initMode) (isPrepared allowLazy_ : bool)
    (s : initSelfMode) (hasPrimary hasRestricted : bool) : decision :=
  let prepare := match m with MODE_PREPARE => true | MODE_INIT_SELF => false end in
  let init_self := match m with MODE_INIT_SELF => true | MODE_PREPARE => false end in
  let not_never := match s with INIT_SELF_NEVER => false | _ => true end in
  match c with
  | PREPARE_PASS =>
      {| errorNotPrepared := false;
         shouldCallInitAction := hasPrimary && negb isPrepared;
         shouldCallInitActionClient := false |}
  | WILL_MOUNT =>
      {| errorNotPrepared := hasPrimary && prepare && negb allowLazy_;
         shouldCallInitAction :=
           hasPrimary && ((init_self && not_never && negb allowLazy_)
                          || (prepare && negb isPrepared && allowLazy_));
         shouldCallInitActionClient := false |}
  | DID_MOUNT =>
      {| errorNotPrepared := false;
         shouldCallInitAction :=
           hasPrimary && ((init_self && not_never && allowLazy_)
                          || (prepare && negb isPrepared && allowLazy_));
         shouldCallInitActionClient := hasRestricted && not_never |}
  | WILL_RECEIVE_INPUTS =>
      {| errorNotPrepared := false;
         shouldCallInitAction := hasPrimary;
         shouldCallInitActionClient := hasRestricted |}
  end.

(** The start and end notifications of the specification. *)
Definition start_notification (caller : option string) (key : string) : redux_action :=
  notification false (caller_is caller "prepareComponent") key.

Definition end_notification (caller : option string) (key : string) : redux_action :=
  notification true (caller_is caller "prepareComponent") key.

(** Every resolution of the result of [initAction] comes after a call of
    [initAction]. *)
Fixpoint result_follows_call (called : bool) (evs : trace) : bool :=
  match evs with
  | [] => true
  | Call InitAction _ :: rest => result_follows_call true rest
  | Resolved InitAction _ :: rest => called && result_follows_call called rest
  | _ :: rest => result_follows_call called rest
  end.

(** [initAction] is never called, and what resolves in its place is the
    placeholder [Promise.resolve()], holding [undefined]. *)
Fixpoint placeholder_only (evs : trace) : bool :=
  match evs with
  | [] => true
  | Call InitAction _ :: _ => false
  | Resolved InitAction v :: rest =>
      match v with VUndefined => placeholder_only rest | _ => false end
  | _ :: rest => placeholder_only rest
  end.

(** Where [initActionClient] is called, the result of [initAction] has
    resolved before, and [initAction] is not called from then on. *)
Definition waits_for_primary (seen : bool) (pre post : trace) : Prop :=
  (seen = true /\ forall p, ~ In (Call InitAction p) (pre ++ post))
  \/ exists pre1 v pre2,
       pre = pre1 ++ Resolved InitAction v :: pre2
       /\ forall p, ~ In (Call InitAction p) (pre2 ++ post).

(** Notifications and calls of the handler do not bear on the order of
    the actions. *)
Definition inert (ev : event) : bool :=
  match ev with
  | Dispatch _ | OnError _ => true
  | Call _ _ | Resolved _ _ => false
  end.

(** The three ways out of the promise chain the end notification is
    written for: the callbacks succeed; they fail and the handler takes
    the error and returns; they fail and the error is thrown again, for
    want of a handler or because it is flagged. *)
Definition exit_path (cfg : initConfig State) (r p : settled jsval) : Prop :=
  (exists v, r = Fulfilled v /\ p = Fulfilled v)
  \/ (exists e h, r = Rejected e
                  /\ onError (options_of cfg) = Some h
                  /\ get_isInvalidReturnError e = inr false
                  /\ h e = None
                  /\ p = Fulfilled VUndefined)
  \/ (exists e, r = Rejected e
                /\ (onError (options_of cfg) = None
                    \/ get_isInvalidReturnError e = inr true)
                /\ p = Rejected e).

(** An invocation passes validation: the config and the init state are
    there, the caller is known and the prepare check raises nothing. *)
Definition passes_validation
    (Component : component State) (initValues : list jsval) (key : string)
    (caller : option string) (getState : State)
    (cfg : initConfig State) (st : initState) (d : decision) : Prop :=
  initConfig_of Component = Some cfg
  /\ getInitState (options_of cfg) getState = Some st
  /\ decide_caller cfg st key caller = inr d
  /\ check_prepared cfg initValues st key d = None.

(** The five ways an invocation fails validation, in the order of the
    checks. *)
Inductive validation_fails
    (Component : component State) (initValues : list jsval) (key : string)
    (caller : option string) (getState : State) : jsval -> Prop :=
| fails_MissingInitConfig :
    initConfig_of Component = None ->
    validation_fails Component initValues key caller getState MissingInitConfig
| fails_MissingInitState cfg :
    initConfig_of Component = Some cfg ->
    getInitState (options_of cfg) getState = None ->
    validation_fails Component initValues key caller getState MissingInitState
| fails_InvalidCaller cfg st :
    initConfig_of Component = Some cfg ->
    getInitState (options_of cfg) getState = Some st ->
    (forall c, caller <> Some (caller_name c)) ->
    validation_fails Component initValues key caller getState (InvalidCaller caller)
| fails_PreparationMissing cfg st :
    initConfig_of Component = Some cfg ->
    getInitState (options_of cfg) getState = Some st ->
    caller = Some (caller_name WILL_MOUNT) ->
    truthy (initAction cfg) = true ->
    mode st = MODE_PREPARE ->
    allowLazy (options_of cfg) = false ->
    prepared st !! key = None ->
    validation_fails Component initValues key caller getState
      (PreparationMissing cfg initValues)
| fails_PreparationPending cfg st :
    initConfig_of Component = Some cfg ->
    getInitState (options_of cfg) getState = Some st ->
    caller = Some (caller_name WILL_MOUNT) ->
    truthy (initAction cfg) = true ->
    mode st = MODE_PREPARE ->
    allowLazy (options_of cfg) = false ->
    prepared st !! key = Some false ->
    validation_fails Component initValues key caller getState
      (PreparationPending cfg).

(** [sub] occurs in [s]. *)
Definition includes (s sub : string) : Prop :=
  exists before after, s = before +:+ sub +:+ after.

(** The combined result of the specification. *)
Definition combined_result (d : decision) (primaryResult restrictedResult : jsval) : jsval :=
  match shouldCallInitAction d, shouldCallInitActionClient d with
  | true, true => VArray [primaryResult; restrictedResult]
  | true, false => primaryResult
  | false, true => restrictedResult
  | false, false => VUndefined
  end.

(** The calls of the two actions in a trace, with the props they got. *)
Definition calls (tr : trace) : list (which * object) :=
  flat_map (fun ev => match ev with Call w props => [(w, props)] | _ => [] end) tr.

(** What the [catch] callback and the last [then] add to a chain whose two
    action callbacks ended as [r]: the events, and how the returned promise
    ends up. *)
Definition finish
    (cfg : initConfig State) (caller : option string) (key : string)
    (r : settled jsval) : trace * settled jsval :=
  match r with
  | Fulfilled v => ([Dispatch (end_notification caller key)], Fulfilled v)
  | Pending => ([], Pending)
  | Rejected e =>
      match onError (options_of cfg) with
      | None => ([Dispatch (end_notification caller key)], Rejected e)
      | Some h =>
          match get_isInvalidReturnError e with
          | inl typeError => ([], Rejected typeError)
          | inr true => ([Dispatch (end_notification caller key)], Rejected e)
          | inr false =>
              match h e with
              | None =>
                  ([OnError e; Dispatch (end_notification caller key)],
                   Fulfilled VUndefined)
              | Some thrown => ([OnError e], Rejected thrown)
              end
          end
      end
  end.

(** ** Properties of the decision *)

Lemma caller_is_other (caller : option string) (c : caller_event) :
  (forall c', caller <> Some (caller_name c')) ->
  caller_is caller (caller_name c) = false.
Proof.
  intros Hother. destruct caller as [s|]; [|reflexivity].
  simpl. destruct (String.eqb_spec s (caller_name c)) as [->|]; [|reflexivity].
  exfalso. exact (Hother c eq_refl).
Qed.

Lemma decide_caller_other cfg st key caller :
  (forall c, caller <> Some (caller_name c)) ->
  decide_caller cfg st key caller = inl (InvalidCaller caller).
Proof.
  intros Hother. unfold decide_caller.
  rewrite (caller_is_other caller PREPARE_PASS Hother : caller_is caller "prepareComponent" = false).
  rewrite (caller_is_other caller WILL_MOUNT Hother : caller_is caller "willMount" = false).
  rewrite (caller_is_other caller DID_MOUNT Hother : caller_is caller "didMount" = false).
  rewrite (caller_is_other caller WILL_RECEIVE_INPUTS Hother
           : caller_is caller "willReceiveProps" = false).
  reflexivity.
Qed.

Lemma decide_caller_named cfg st key c :
  decide_caller cfg st key (Some (caller_name c)) =
  inr (decision_table c (mode st)
         (bool_decide (is_Some (prepared st !! key)))
         (allowLazy (options_of cfg)) (initSelf (options_of cfg))
         (truthy (initAction cfg)) (truthy (initActionClient cfg))).
Proof.
  unfold decide_caller, decision_table.
  destruct (prepared st !! key) as [b|] eqn:Hlookup.
  - rewrite (bool_decide_eq_true_2 (is_Some (Some b))) by eauto.
    destruct c, (mode st), (initSelf (options_of cfg)); reflexivity.
  - rewrite (bool_decide_eq_false_2 (is_Some (@None bool)))
      by (intros [? ?]; discriminate).
    destruct c, (mode st), (initSelf (options_of cfg)); reflexivity.
Qed.

(** The decision is always one of the known callers' or the error of the
    [default] case. *)
Lemma decide_caller_inr cfg st key caller d :
  decide_caller cfg st key caller = inr d ->
  exists c, caller = Some (caller_name c).
Proof.
  intros Hd. unfold decide_caller in Hd.
  destruct caller as [s|]; simpl in Hd; [|discriminate].
  destruct (String.eqb_spec s "prepareComponent") as [->|];
    [exists PREPARE_PASS; reflexivity|].
  destruct (String.eqb_spec s "willMount") as [->|];
    [exists WILL_MOUNT; reflexivity|].
  destruct (String.eqb_spec s "didMount") as [->|];
    [exists DID_MOUNT; reflexivity|].
  destruct (String.eqb_spec s "willReceiveProps") as [->|];
    [exists WILL_RECEIVE_INPUTS; reflexivity|].
  discriminate.
Qed.

(** An action is scheduled only when it was supplied. *)
Lemma scheduled_supplied cfg st key caller d :
  decide_caller cfg st key caller = inr d ->
  (shouldCallInitAction d = true -> truthy (initAction cfg) = true)
  /\ (shouldCallInitActionClient d = true -> truthy (initActionClient cfg) = true).
Proof.
  intros Hd. destruct (decide_caller_inr _ _ _ _ _ Hd) as [c ->].
  rewrite decide_caller_named in Hd. injection Hd as <-.
  destruct c; simpl; split; intros H;
    repeat (apply andb_prop in H; destruct H as [H ?]); try discriminate; assumption.
Qed.

(** C1: the switch on [caller] computes the decision table of the
    specification.  For each of the four callers and every mode, prepared
    record, [allowLazy], [initSelf] and pair of supplied actions, the
    decision is the row of the table, where [isPrepared] says that
    [prepared[key]] is defined; for any other caller (also a missing one)
    the switch raises the invalid-caller error, and so does
    [initComponent] once the config and the init state are found. *)
Theorem decision_engine_matches_table
    (cfg : initConfig State) (st : initState) (key : string)
    (caller : option string) :
  (forall c, caller = Some (caller_name c) ->
     decide_caller cfg st key caller =
     inr (decision_table c (mode st)
            (bool_decide (is_Some (prepared st !! key)))
            (allowLazy (options_of cfg)) (initSelf (options_of cfg))
            (truthy (initAction cfg)) (truthy (initActionClient cfg))))
  /\ ((forall c, caller <> Some (caller_name c)) ->
      decide_caller cfg st key caller = inl (InvalidCaller caller)
      /\ forall Component initValues getState tr,
           initConfig_of Component = Some cfg ->
           getInitState (options_of cfg) getState = Some st ->
           initComponent Component initValues key caller getState tr
           = (tr, Threw (InvalidCaller caller))).
Proof.
  split.
  - intros c ->. apply decide_caller_named.
  - intros Hother. split; [now apply decide_caller_other|].
    intros Component initValues getState tr Hcfg Hst.
    unfold initComponent. rewrite Hcfg, Hst, (decide_caller_other _ _ _ _ Hother).
    reflexivity.
Qed.

(** ** Properties of the validation *)

Lemma append_empty_r (s : string) : s +:+ EmptyString = s.
Proof.
  induction s as [|a s IH]; [reflexivity|].
  change (String a (s +:+ EmptyString) = String a s). now rewrite IH.
Qed.

Lemma append_assoc (a b c : string) : (a +:+ b) +:+ c = a +:+ (b +:+ c).
Proof.
  induction a as [|x a IH]; [reflexivity|].
  change (String x ((a +:+ b) +:+ c) = String x (a +:+ (b +:+ c))).
  now rewrite IH.
Qed.

Lemma includes_prefix (sub after : string) : includes (sub +:+ after) sub.
Proof. exists EmptyString, after. reflexivity. Qed.

Lemma includes_refl (s : string) : includes s s.
Proof. exists EmptyString, EmptyString. simpl. now rewrite append_empty_r. Qed.

Lemma includes_append_r (front s sub : string) :
  includes s sub -> includes (front +:+ s) sub.
Proof.
  intros (before & after & ->). exists (front +:+ before), after.
  now rewrite append_assoc.
Qed.

(** What [errorNotPrepared] stands for. *)
Lemma errorNotPrepared_true cfg st key caller d :
  decide_caller cfg st key caller = inr d ->
  errorNotPrepared d = true ->
  caller = Some (caller_name WILL_MOUNT)
  /\ truthy (initAction cfg) = true
  /\ mode st = MODE_PREPARE
  /\ allowLazy (options_of cfg) = false.
Proof.
  intros Hd He. destruct (decide_caller_inr _ _ _ _ _ Hd) as [c ->].
  rewrite decide_caller_named in Hd. injection Hd as <-.
  destruct c; simpl in He; try discriminate.
  destruct (truthy (initAction cfg)), (mode st), (allowLazy (options_of cfg));
    simpl in He; try discriminate.
  repeat split; reflexivity.
Qed.

Lemma errorNotPrepared_willMount cfg st key :
  truthy (initAction cfg) = true ->
  mode st = MODE_PREPARE ->
  allowLazy (options_of cfg) = false ->
  exists d, decide_caller cfg st key (Some (caller_name WILL_MOUNT)) = inr d
            /\ errorNotPrepared d = true.
Proof.
  intros Ha Hm Hl. eexists. split; [apply decide_caller_named|].
  simpl. now rewrite Ha, Hm, Hl.
Qed.

Lemma PreparationMissing_message cfg initValues :
  exists msg,
    PreparationMissing cfg initValues = VError PrepareValidationErrorC msg false
    /\ includes msg (componentId cfg)
    /\ includes msg
         (JSON_stringify (propNameValuesToObject (initProps cfg) initValues)).
Proof.
  eexists. split; [reflexivity|]. split.
  - do 2 apply includes_append_r. apply includes_prefix.
  - do 6 apply includes_append_r. apply includes_refl.
Qed.

(** C6: a validation failure (no init config, no init state, an unknown
    caller, a preparation that is missing or still pending) is thrown by
    the thunk itself, with the trace as it was: no notification has been
    dispatched and no action has been called. *)
Theorem validation_failure_throws_before_any_effect
    (Component : component State) (initValues : list jsval) (key : string)
    (caller : option string) (getState : State) (e : jsval) (tr : trace) :
  validation_fails Component initValues key caller getState e ->
  initComponent Component initValues key caller getState tr = (tr, Threw e).
Proof.
  intros Hfail. unfold initComponent.
  destruct Hfail as
    [Hcfg | cfg Hcfg Hst | cfg st Hcfg Hst Hother
     | cfg st Hcfg Hst -> Ha Hm Hl Hp | cfg st Hcfg Hst -> Ha Hm Hl Hp].
  - now rewrite Hcfg.
  - now rewrite Hcfg, Hst.
  - now rewrite Hcfg, Hst, (decide_caller_other _ _ _ _ Hother).
  - rewrite Hcfg, Hst.
    destruct (errorNotPrepared_willMount cfg st key Ha Hm Hl) as (d & -> & He).
    unfold check_prepared. now rewrite He, Hp.
  - rewrite Hcfg, Hst.
    destruct (errorNotPrepared_willMount cfg st key Ha Hm Hl) as (d & -> & He).
    unfold check_prepared. now rewrite He, Hp.
Qed.

(** X1: the thunk throws for no other reason than a validation failure,
    and never after an effect: the trace is as it was. *)
Lemma thrown_is_validation_failure
    (Component : component State) (initValues : list jsval) (key : string)
    (caller : option string) (getState : State) (e : jsval) (tr tr' : trace) :
  initComponent Component initValues key caller getState tr = (tr', Threw e) ->
  tr' = tr /\ validation_fails Component initValues key caller getState e.
Proof.
  unfold initComponent.
  destruct (initConfig_of Component) as [cfg|] eqn:Hcfg.
  2:{ intros [= <- <-]. split; [reflexivity | now apply fails_MissingInitConfig]. }
  destruct (getInitState (options_of cfg) getState) as [st|] eqn:Hst.
  2:{ intros [= <- <-]. split; [reflexivity|].
      eapply fails_MissingInitState; eauto. }
  destruct (decide_caller cfg st key caller) as [err|d] eqn:Hd.
  { intros [= <- <-]. split; [reflexivity|].
    destruct caller as [s|].
    - unfold decide_caller in Hd. simpl in Hd.
      destruct (String.eqb_spec s "prepareComponent"); [discriminate|].
      destruct (String.eqb_spec s "willMount"); [discriminate|].
      destruct (String.eqb_spec s "didMount"); [discriminate|].
      destruct (String.eqb_spec s "willReceiveProps"); [discriminate|].
      injection Hd as <-.
      eapply fails_InvalidCaller; [exact Hcfg | exact Hst |].
      intros [] [= ->]; contradiction.
    - injection Hd as <-.
      eapply fails_InvalidCaller; [exact Hcfg | exact Hst |].
      intros c; discriminate. }
  destruct (check_prepared cfg initValues st key d) as [err|] eqn:Hchk.
  { intros [= <- <-]. split; [reflexivity|].
    unfold check_prepared in Hchk.
    destruct (errorNotPrepared d) eqn:He; [|discriminate].
    destruct (errorNotPrepared_true _ _ _ _ _ Hd He) as (-> & Ha & Hm & Hl).
    destruct (prepared st !! key) as [[|]|] eqn:Hp; try discriminate;
      injection Hchk as <-.
    - eapply fails_PreparationPending; eauto.
    - eapply fails_PreparationMissing; eauto. }
  destruct (negb (shouldCallInitAction d) && negb (shouldCallInitActionClient d));
    [discriminate|].
  destruct (then_ _ _ _) as [tr2 p]. discriminate.
Qed.

(** C4: when the decision asks for a prepared component (caller
    [willMount], an [initAction] supplied, mode PREPARE, [allowLazy] off),
    a key absent from [prepared] makes the thunk throw the
    preparation-missing error, whose message holds the component id and the
    serialized init props, and a key recorded as [false] makes it throw the
    preparation-pending error; in both cases the trace is left as it was,
    so no action has run. *)
Theorem unprepared_component_is_refused
    (Component : component State) (cfg : initConfig State) (st : initState)
    (initValues : list jsval) (key : string) (caller : option string)
    (getState : State) (d : decision) (tr : trace) :
  initConfig_of Component = Some cfg ->
  getInitState (options_of cfg) getState = Some st ->
  decide_caller cfg st key caller = inr d ->
  errorNotPrepared d = true ->
  (caller = Some (caller_name WILL_MOUNT)
   /\ truthy (initAction cfg) = true
   /\ mode st = MODE_PREPARE
   /\ allowLazy (options_of cfg) = false)
  /\ (prepared st !! key = None ->
      initComponent Component initValues key caller getState tr
      = (tr, Threw (PreparationMissing cfg initValues))
      /\ exists msg,
           PreparationMissing cfg initValues
           = VError PrepareValidationErrorC msg false
           /\ includes msg (componentId cfg)
           /\ includes msg
                (JSON_stringify
                   (propNameValuesToObject (initProps cfg) initValues)))
  /\ (prepared st !! key = Some false ->
      initComponent Component initValues key caller getState tr
      = (tr, Threw (PreparationPending cfg))
      /\ exists msg,
           PreparationPending cfg = VError PrepareValidationErrorC msg false
           /\ includes msg (componentId cfg)).
Proof.
  intros Hcfg Hst Hd He.
  split; [exact (errorNotPrepared_true _ _ _ _ _ Hd He)|].
  unfold initComponent, check_prepared. rewrite Hcfg, Hst, Hd, He.
  split; intros ->.
  - split; [reflexivity | apply PreparationMissing_message].
  - split; [reflexivity|]. eexists. split; [reflexivity|].
    do 2 apply includes_append_r. apply includes_prefix.
Qed.

(** C9: an invocation that passes validation and schedules neither action
    returns an already resolved promise holding [undefined], and adds
    nothing to the trace: no start and no end notification. *)
Theorem nothing_scheduled_is_a_no_op
    (Component : component State) (cfg : initConfig State) (st : initState)
    (initValues : list jsval) (key : string) (caller : option string)
    (getState : State) (d : decision) (tr : trace) :
  passes_validation Component initValues key caller getState cfg st d ->
  shouldCallInitAction d = false ->
  shouldCallInitActionClient d = false ->
  initComponent Component initValues key caller getState tr
  = (tr, Returned (Fulfilled VUndefined)).
Proof.
  intros (Hcfg & Hst & Hd & Hchk) Hp Hr.
  unfold initComponent. now rewrite Hcfg, Hst, Hd, Hchk, Hp, Hr.
Qed.

(** ** Properties of the promise chain *)

Lemma dispatched_app (a b : trace) : dispatched (a ++ b) = dispatched a ++ dispatched b.
Proof. apply flat_map_app. Qed.

Lemma onError_calls_app (a b : trace) :
  onError_calls (a ++ b) = onError_calls a ++ onError_calls b.
Proof. apply flat_map_app. Qed.

Ltac unfold_chain :=
  unfold run_actions, run_initAction, run_initActionClient, call_or_resolve,
    expect_thenable, await, on_rejected, on_done, call_onError, dispatch, call,
    emit, then_, catch_, ret, throw, never, Promise_resolve.

(** Closes [exists evs, tr ++ ... = tr ++ evs /\ ...] on an explicit trace. *)
Ltac explicit_events :=
  simpl;
  first
    [ exists []; split; [now rewrite app_nil_r | repeat split; reflexivity]
    | eexists; split;
      [ rewrite <- ?app_assoc; simpl; reflexivity | repeat split; reflexivity ] ].

(** The events of the first callback: a call of [initAction] followed by
    the resolution of its result, the resolution of the placeholder, or a
    failure at or before the call. *)
Lemma run_initAction_events cfg d props tr0 :
  exists evs r,
    run_initAction cfg d props tr0 = (tr0 ++ evs, r)
    /\ ((exists v, r = Fulfilled v
                   /\ if shouldCallInitAction d
                      then evs = [Call InitAction props; Resolved InitAction v]
                      else evs = [Resolved InitAction VUndefined])
        \/ ((forall v, r <> Fulfilled v)
            /\ shouldCallInitAction d = true
            /\ (evs = [Call InitAction props] \/ evs = []))).
Proof.
  unfold run_initAction, call_or_resolve, expect_thenable, await, call, emit,
    then_, ret, throw, never, Promise_resolve.
  destruct (shouldCallInitAction d).
  - destruct (initAction cfg) as [f|].
    + destruct (f props (tr0 ++ [Call InitAction props]))
        as [e | [v | [v | e |]]]; [| destruct (is_nullish v) | | |];
        try (eexists _, _; split;
             [reflexivity | right; split; [discriminate | auto]]).
      eexists _, _. split; [now rewrite <- app_assoc|]. left. eauto.
    + exists [], (Rejected (TypeError_not_a_function "initAction")).
      rewrite app_nil_r. split; [reflexivity|]. right. split; [discriminate | auto].
  - eexists _, _. split; [reflexivity|]. left. eauto.
Qed.

(** The events of the second callback. *)
Lemma run_initActionClient_events cfg d props serverValue tr0 :
  exists evs,
    fst (run_initActionClient cfg d props serverValue tr0) = tr0 ++ evs
    /\ ((exists v, evs = [Call InitActionClient props; Resolved InitActionClient v])
        \/ evs = [Resolved InitActionClient VUndefined]
        \/ evs = [Call InitActionClient props]
        \/ evs = []).
Proof.
  unfold run_initActionClient, call_or_resolve, expect_thenable, await, call, emit,
    then_, ret, throw, never, Promise_resolve.
  destruct (shouldCallInitActionClient d).
  - destruct (initActionClient cfg) as [g|].
    + destruct (g props (tr0 ++ [Call InitActionClient props]))
        as [e | [v | [v | e |]]]; [| destruct (is_nullish v) | | |];
        try (eexists; split; [reflexivity | auto]).
      eexists. split; [simpl; now rewrite <- app_assoc | eauto].
    + exists []. rewrite app_nil_r. auto.
  - eexists. split; [reflexivity | auto].
Qed.

(** The two callbacks only add calls and resolutions to the trace: they
    dispatch nothing and do not reach the handler; and they keep the order
    of the two actions. *)
Lemma run_actions_events cfg d props tr0 :
  exists evs,
    fst (run_actions cfg d props tr0) = tr0 ++ evs
    /\ dispatched evs = []
    /\ onError_calls evs = []
    /\ ordered false evs = true
    /\ (if shouldCallInitAction d
        then result_follows_call false evs
        else placeholder_only evs) = true.
Proof.
  unfold run_actions. unfold then_ at 1 2, ret.
  destruct (run_initAction_events cfg d props tr0) as (evs1 & r & -> & Hfirst).
  destruct Hfirst as [(v & -> & Hevs1) | (Hr & Hp & Hevs1)].
  - destruct (run_initActionClient_events cfg d props v (tr0 ++ evs1))
      as (evs2 & -> & Hevs2).
    exists (evs1 ++ evs2). split; [now rewrite app_assoc|].
    destruct (shouldCallInitAction d); subst evs1;
      destruct Hevs2 as [[v2 ->] | [-> | [-> | ->]]]; repeat split; reflexivity.
  - exists evs1. split; [now destruct r as [v | e |]; [destruct (Hr v eq_refl) | |]|].
    rewrite Hp. destruct Hevs1 as [-> | ->]; repeat split; reflexivity.
Qed.

Lemma run_actions_quiet cfg d props tr0 tr1 r :
  run_actions cfg d props tr0 = (tr1, r) ->
  dispatched tr1 = dispatched tr0 /\ onError_calls tr1 = onError_calls tr0.
Proof.
  intros Hrun.
  destruct (run_actions_events cfg d props tr0) as (evs & Hevs & Hd & He & _).
  rewrite Hrun in Hevs. simpl in Hevs. subst tr1.
  now rewrite dispatched_app, onError_calls_app, Hd, He, !app_nil_r.
Qed.

(** With nothing to call the two callbacks go through. *)
Lemma run_actions_rejected_scheduled cfg d props tr0 tr1 e :
  run_actions cfg d props tr0 = (tr1, Rejected e) ->
  shouldCallInitAction d || shouldCallInitActionClient d = true.
Proof.
  destruct (shouldCallInitAction d) eqn:Hp, (shouldCallInitActionClient d) eqn:Hr;
    try reflexivity.
  unfold_chain. rewrite Hp, Hr. simpl. discriminate.
Qed.

(** The promise returned once an action is scheduled. *)
Lemma initComponent_scheduled
    (Component : component State) (cfg : initConfig State) (st : initState)
    (initValues : list jsval) (key : string) (caller : option string)
    (getState : State) (d : decision) (tr : trace) :
  passes_validation Component initValues key caller getState cfg st d ->
  shouldCallInitAction d || shouldCallInitActionClient d = true ->
  initComponent Component initValues key caller getState tr
  = (let (tr', p) :=
       then_
         (catch_
            (run_actions cfg d (propNameValuesToObject (initProps cfg) initValues))
            (on_rejected cfg (caller_is caller "prepareComponent") key))
         (on_done (caller_is caller "prepareComponent") key)
         (tr ++ [Dispatch (start_notification caller key)]) in
     (tr', Returned p)).
Proof.
  intros (Hcfg & Hst & Hd & Hchk) Hsched.
  unfold initComponent. rewrite Hcfg, Hst, Hd, Hchk.
  destruct (shouldCallInitAction d), (shouldCallInitActionClient d);
    try discriminate; reflexivity.
Qed.

(** X17: how [run_actions] fails when [initAction] is called: it throws, or the
    thenable it returns rejects. *)
Lemma run_actions_primary_fails cfg d props tr0 f e :
  shouldCallInitAction d = true ->
  initAction cfg = Some f ->
  f props (tr0 ++ [Call InitAction props]) = Throws e
  \/ f props (tr0 ++ [Call InitAction props]) = Returns (Thenable (Rejects e)) ->
  run_actions cfg d props tr0 = (tr0 ++ [Call InitAction props], Rejected e).
Proof.
  intros Hp Hf Hfail. unfold_chain. rewrite Hp, Hf.
  destruct Hfail as [-> | ->]; reflexivity.
Qed.

(** C10: when the two callbacks fail with an error that reaches the
    configured handler (the read of its [isInvalidReturnError] gives a
    falsy value) and the handler throws, the returned promise rejects with
    what the handler threw and no end notification is dispatched: the
    start notification is the only one of the invocation. *)
Theorem throwing_handler_rejects_without_end
    (Component : component State) (cfg : initConfig State) (st : initState)
    (initValues : list jsval) (key : string) (caller : option string)
    (getState : State) (d : decision) (tr tr1 : trace)
    (e thrown : jsval) (h : handler) :
  passes_validation Component initValues key caller getState cfg st d ->
  run_actions cfg d (propNameValuesToObject (initProps cfg) initValues)
    (tr ++ [Dispatch (start_notification caller key)]) = (tr1, Rejected e) ->
  onError (options_of cfg) = Some h ->
  get_isInvalidReturnError e = inr false ->
  h e = Some thrown ->
  initComponent Component initValues key caller getState tr
  = (tr1 ++ [OnError e], Returned (Rejected thrown))
  /\ dispatched (tr1 ++ [OnError e])
     = dispatched tr ++ [start_notification caller key]
  /\ end_count (tr1 ++ [OnError e]) = end_count tr.
Proof.
  intros Hvalid Hrun Hh Hflag Hthrows.
  pose proof (run_actions_rejected_scheduled _ _ _ _ _ _ Hrun) as Hsched.
  destruct (run_actions_quiet _ _ _ _ _ _ Hrun) as [Hd _].
  rewrite (initComponent_scheduled _ _ _ _ _ _ _ _ _ Hvalid Hsched).
  unfold then_ at 1, catch_. rewrite Hrun.
  unfold on_rejected. rewrite Hh, Hflag.
  unfold call_onError, then_. rewrite Hthrows.
  split; [reflexivity|].
  assert (dispatched (tr1 ++ [OnError e])
          = dispatched tr ++ [start_notification caller key]) as Hdisp.
  { rewrite dispatched_app, Hd, dispatched_app. simpl. now rewrite app_nil_r. }
  split; [exact Hdisp|].
  unfold end_count. rewrite Hdisp, List.filter_app, List.length_app. simpl. lia.
Qed.

(** C5, amended: when the two callbacks fail with an error that reaches
    the configured handler and the handler returns, the handler has been
    called once, with that error, the returned promise fulfills (with
    [undefined]) and the end notification follows the start one. *)
Theorem handled_failure_is_shielded
    (Component : component State) (cfg : initConfig State) (st : initState)
    (initValues : list jsval) (key : string) (caller : option string)
    (getState : State) (d : decision) (tr tr1 : trace)
    (e : jsval) (h : handler) :
  passes_validation Component initValues key caller getState cfg st d ->
  run_actions cfg d (propNameValuesToObject (initProps cfg) initValues)
    (tr ++ [Dispatch (start_notification caller key)]) = (tr1, Rejected e) ->
  onError (options_of cfg) = Some h ->
  get_isInvalidReturnError e = inr false ->
  h e = None ->
  let tr' := tr1 ++ [OnError e; Dispatch (end_notification caller key)] in
  initComponent Component initValues key caller getState tr
  = (tr', Returned (Fulfilled VUndefined))
  /\ onError_calls tr' = onError_calls tr ++ [e]
  /\ dispatched tr'
     = dispatched tr ++ [start_notification caller key; end_notification caller key]
  /\ end_count tr' = S (end_count tr).
Proof.
  intros Hvalid Hrun Hh Hflag Hreturns tr'.
  pose proof (run_actions_rejected_scheduled _ _ _ _ _ _ Hrun) as Hsched.
  destruct (run_actions_quiet _ _ _ _ _ _ Hrun) as [Hd He].
  rewrite (initComponent_scheduled _ _ _ _ _ _ _ _ _ Hvalid Hsched).
  unfold then_ at 1, catch_. rewrite Hrun.
  unfold on_rejected. rewrite Hh, Hflag.
  unfold call_onError, then_ at 1. rewrite Hreturns.
  unfold ret, on_done, then_, dispatch, emit.
  split; [subst tr'; now rewrite <- app_assoc|].
  assert (dispatched tr'
          = dispatched tr
              ++ [start_notification caller key; end_notification caller key])
    as Hdisp.
  { subst tr'. rewrite dispatched_app, Hd, dispatched_app. simpl.
    now rewrite <- app_assoc. }
  split.
  { subst tr'. rewrite onError_calls_app, He, onError_calls_app. simpl.
    now rewrite app_nil_r. }
  split; [exact Hdisp|].
  unfold end_count. rewrite Hdisp, List.filter_app, List.length_app. simpl. lia.
Qed.

(** C2, amended: an invocation that passes validation and schedules an
    action dispatches the end notification exactly once, after the start
    one, on each of these exits: the callbacks succeed; they fail and the
    handler takes the error and returns; they fail and the error is thrown
    again to the caller. *)
Theorem end_notification_once_on_each_exit
    (Component : component State) (cfg : initConfig State) (st : initState)
    (initValues : list jsval) (key : string) (caller : option string)
    (getState : State) (d : decision) (tr tr1 : trace) (r p : settled jsval) :
  passes_validation Component initValues key caller getState cfg st d ->
  shouldCallInitAction d || shouldCallInitActionClient d = true ->
  run_actions cfg d (propNameValuesToObject (initProps cfg) initValues)
    (tr ++ [Dispatch (start_notification caller key)]) = (tr1, r) ->
  exit_path cfg r p ->
  exists tr',
    initComponent Component initValues key caller getState tr = (tr', Returned p)
    /\ dispatched tr'
       = dispatched tr ++ [start_notification caller key; end_notification caller key]
    /\ end_count tr' = S (end_count tr).
Proof.
  intros Hvalid Hsched Hrun Hexit.
  destruct (run_actions_quiet _ _ _ _ _ _ Hrun) as [Hd _].
  rewrite (initComponent_scheduled _ _ _ _ _ _ _ _ _ Hvalid Hsched).
  assert (forall mid,
            dispatched mid = [] ->
            dispatched ((tr1 ++ mid) ++ [Dispatch (end_notification caller key)])
            = dispatched tr
                ++ [start_notification caller key; end_notification caller key])
    as Hdisp.
  { intros mid Hmid. rewrite !dispatched_app, Hd, Hmid, dispatched_app. simpl.
    now rewrite app_nil_r, <- app_assoc. }
  assert (forall tr',
            dispatched tr'
            = dispatched tr
                ++ [start_notification caller key; end_notification caller key] ->
            end_count tr' = S (end_count tr)) as Hcount.
  { intros tr' E. unfold end_count.
    rewrite E, List.filter_app, List.length_app. simpl. lia. }
  unfold then_ at 1, catch_. rewrite Hrun.
  destruct Hexit as
    [(v & -> & ->) | [(e & h & -> & Hh & Hflag & Hreturns & ->)
                     | (e & -> & Hraise & ->)]].
  - exists ((tr1 ++ []) ++ [Dispatch (end_notification caller key)]).
    split; [now rewrite app_nil_r|]. split; [|apply Hcount]; now apply Hdisp.
  - exists ((tr1 ++ [OnError e]) ++ [Dispatch (end_notification caller key)]).
    split; [|split; [|apply Hcount]; now apply Hdisp].
    unfold on_rejected. rewrite Hh, Hflag.
    unfold call_onError, then_ at 1. now rewrite Hreturns.
  - exists ((tr1 ++ []) ++ [Dispatch (end_notification caller key)]).
    split; [|split; [|apply Hcount]; now apply Hdisp].
    rewrite app_nil_r. unfold on_rejected.
    destruct Hraise as [-> | Hflag].
    + reflexivity.
    + rewrite Hflag. now destruct (onError (options_of cfg)).
Qed.

(** C8: when the scheduled actions return thenables that resolve, the
    promise of an invocation that passes validation fulfills with the pair
    of both results when both actions were scheduled, with the result of
    the only scheduled one when there is one, and with [undefined] when
    there is none. *)
Theorem success_result_is_combined
    (Component : component State) (cfg : initConfig State) (st : initState)
    (initValues : list jsval) (key : string) (caller : option string)
    (getState : State) (d : decision) (tr : trace)
    (primaryResult restrictedResult : jsval) :
  passes_validation Component initValues key caller getState cfg st d ->
  (forall f, shouldCallInitAction d = true -> initAction cfg = Some f ->
     forall tr0,
       f (propNameValuesToObject (initProps cfg) initValues) tr0
       = Returns (Thenable (Resolves primaryResult))) ->
  (forall g, shouldCallInitActionClient d = true -> initActionClient cfg = Some g ->
     forall tr0,
       g (propNameValuesToObject (initProps cfg) initValues) tr0
       = Returns (Thenable (Resolves restrictedResult))) ->
  exists tr',
    initComponent Component initValues key caller getState tr
    = (tr', Returned (Fulfilled (combined_result d primaryResult restrictedResult))).
Proof.
  intros (Hcfg & Hst & Hd & Hchk) HP HR.
  destruct (scheduled_supplied _ _ _ _ _ Hd) as [Hsp Hsr].
  unfold initComponent, combined_result. rewrite Hcfg, Hst, Hd, Hchk.
  destruct (shouldCallInitAction d) eqn:Ep, (shouldCallInitActionClient d) eqn:Er;
    simpl; unfold_chain; rewrite ?Ep, ?Er.
  - destruct (initAction cfg) as [f|]; [|now specialize (Hsp eq_refl)].
    destruct (initActionClient cfg) as [g|]; [|now specialize (Hsr eq_refl)].
    rewrite (HP f eq_refl eq_refl), (HR g eq_refl eq_refl). simpl.
    eexists; reflexivity.
  - destruct (initAction cfg) as [f|]; [|now specialize (Hsp eq_refl)].
    rewrite (HP f eq_refl eq_refl). simpl. eexists; reflexivity.
  - destruct (initActionClient cfg) as [g|]; [|now specialize (Hsr eq_refl)].
    rewrite (HR g eq_refl eq_refl). simpl. eexists; reflexivity.
  - eexists; reflexivity.
Qed.

(** ** Order of the two actions *)

Lemma ordered_true_no_call evs :
  ordered true evs = true -> forall p, ~ In (Call InitAction p) evs.
Proof.
  induction evs as [|ev evs IH]; intros Hord p Hin; [exact Hin|].
  destruct Hin as [-> | Hin]; [simpl in Hord; discriminate|].
  destruct ev as [a | [] props | [] v | e]; simpl in Hord;
    try discriminate; exact (IH Hord p Hin).
Qed.

Lemma waits_for_primary_cons ev seen pre post :
  (forall p, ev <> Call InitAction p) ->
  waits_for_primary seen pre post ->
  waits_for_primary seen (ev :: pre) post.
Proof.
  intros Hev [[Hseen Hno] | (pre1 & v & pre2 & -> & Hno)].
  - left. split; [exact Hseen|].
    intros p [E | Hin]; [exact (Hev p E) | exact (Hno p Hin)].
  - right. exists (ev :: pre1), v, pre2. split; [reflexivity | exact Hno].
Qed.

Lemma ordered_sound pre :
  forall seen props post,
    ordered seen (pre ++ Call InitActionClient props :: post) = true ->
    waits_for_primary seen pre post.
Proof.
  induction pre as [|ev pre IH]; intros seen props post Hord.
  - simpl in Hord. apply andb_prop in Hord as [-> Hord].
    left. split; [reflexivity|]. now apply ordered_true_no_call.
  - destruct ev as [a | [] props' | [] v | e]; simpl in Hord.
    + apply waits_for_primary_cons; [discriminate | eauto].
    + apply andb_prop in Hord as [Hseen Hord].
      destruct seen; [discriminate|].
      destruct (IH _ _ _ Hord) as [[E _] | (pre1 & v & pre2 & -> & Hno)];
        [discriminate|].
      right. exists (Call InitAction props' :: pre1), v, pre2.
      split; [reflexivity | exact Hno].
    + apply andb_prop in Hord as [-> Hord].
      apply waits_for_primary_cons; [discriminate | eauto].
    + right. exists [], v, pre. split; [reflexivity|].
      intros p Hin. apply (ordered_true_no_call _ Hord p).
      apply in_app_or in Hin as [Hin | Hin]; apply in_or_app;
        [left | right; right]; exact Hin.
    + apply waits_for_primary_cons; [discriminate | eauto].
    + apply waits_for_primary_cons; [discriminate | eauto].
Qed.

Lemma result_follows_call_sound pre :
  forall called v post,
    result_follows_call called (pre ++ Resolved InitAction v :: post) = true ->
    called = true \/ exists p, In (Call InitAction p) pre.
Proof.
  induction pre as [|ev pre IH]; intros called v post Hres.
  - simpl in Hres. apply andb_prop in Hres as [-> _]. now left.
  - destruct ev as [a | [] props | [] v' | e]; simpl in Hres.
    + destruct (IH _ _ _ Hres) as [-> | [p Hin]]; [now left|].
      right. exists p. now right.
    + right. exists props. now left.
    + destruct (IH _ _ _ Hres) as [-> | [p Hin]]; [now left|].
      right. exists p. now right.
    + apply andb_prop in Hres as [-> _]. now left.
    + destruct (IH _ _ _ Hres) as [-> | [p Hin]]; [now left|].
      right. exists p. now right.
    + destruct (IH _ _ _ Hres) as [-> | [p Hin]]; [now left|].
      right. exists p. now right.
Qed.

Lemma placeholder_only_sound evs :
  placeholder_only evs = true ->
  (forall p, ~ In (Call InitAction p) evs)
  /\ forall pre v post, evs = pre ++ Resolved InitAction v :: post -> v = VUndefined.
Proof.
  induction evs as [|ev evs IH]; intros Hph.
  - split; [intros p [] | intros [|? ?] v post E; discriminate E].
  - assert (placeholder_only evs = true
            /\ (forall p, ev <> Call InitAction p)
            /\ (forall v, ev = Resolved InitAction v -> v = VUndefined))
      as (Hrest & Hcall & Hres).
    { destruct ev as [a | [] props | [] v | e]; simpl in Hph;
        try discriminate; try (repeat split; [exact Hph | discriminate ..]).
      destruct v; try discriminate.
      repeat split; [exact Hph | discriminate | now intros ? [= <-]]. }
    destruct (IH Hrest) as [Hno Hundef]. split.
    + intros p [E | Hin]; [exact (Hcall p E) | exact (Hno p Hin)].
    + intros [|x pre] v post E; injection E as E1 E2.
      * now apply Hres.
      * now apply (Hundef pre v post).
Qed.

Lemma ordered_app_inert seen evs tail :
  forallb inert tail = true -> ordered seen (evs ++ tail) = ordered seen evs.
Proof.
  intros Htail. revert seen. induction evs as [|ev evs IH]; intros seen.
  - simpl. induction tail as [|ev tail IH]; [reflexivity|].
    simpl in Htail. apply andb_prop in Htail as [Hev Htail].
    destruct ev; try discriminate; simpl; auto.
  - destruct ev as [a | [] props | [] v | e]; simpl; now rewrite ?IH.
Qed.

Lemma result_follows_call_app_inert called evs tail :
  forallb inert tail = true ->
  result_follows_call called (evs ++ tail) = result_follows_call called evs.
Proof.
  intros Htail. revert called. induction evs as [|ev evs IH]; intros called.
  - simpl. induction tail as [|ev tail IH]; [reflexivity|].
    simpl in Htail. apply andb_prop in Htail as [Hev Htail].
    destruct ev; try discriminate; simpl; auto.
  - destruct ev as [a | [] props | [] v | e]; simpl; now rewrite ?IH.
Qed.

Lemma placeholder_only_app_inert evs tail :
  forallb inert tail = true ->
  placeholder_only (evs ++ tail) = placeholder_only evs.
Proof.
  intros Htail. induction evs as [|ev evs IH].
  - simpl. induction tail as [|ev tail IH]; [reflexivity|].
    simpl in Htail. apply andb_prop in Htail as [Hev Htail].
    destruct ev; try discriminate; simpl; auto.
  - destruct ev as [a | [] props | [] v | e]; simpl; rewrite ?IH; reflexivity.
Qed.

(** What follows the two callbacks: at most a call of the handler and the
    end notification. *)
Lemma after_actions_inert cfg isPrep key (tr1 : trace) (r : settled jsval) :
  exists tail,
    fst (then_ (catch_ (fun tr0 => (tr0, r)) (on_rejected cfg isPrep key))
               (on_done isPrep key) tr1) = tr1 ++ tail
    /\ forallb inert tail = true.
Proof.
  unfold on_rejected, on_done, call_onError, dispatch, emit, then_, catch_, ret, throw.
  destruct r as [v | e |].
  - simpl. eexists; split; reflexivity.
  - destruct (onError (options_of cfg)) as [h|].
    + destruct (get_isInvalidReturnError e) as [te | []].
      * simpl. exists []. now rewrite app_nil_r.
      * simpl. eexists; split; reflexivity.
      * destruct (h e); simpl.
        -- eexists; split; reflexivity.
        -- rewrite <- app_assoc. eexists; split; reflexivity.
    + simpl. eexists; split; reflexivity.
  - simpl. exists []. now rewrite app_nil_r.
Qed.

(** The events of an invocation, whatever the actions and the handler do. *)
Lemma initComponent_events
    (Component : component State) (initValues : list jsval) (key : string)
    (caller : option string) (getState : State) (tr : trace) :
  exists evs,
    fst (initComponent Component initValues key caller getState tr) = tr ++ evs
    /\ ordered false evs = true
    /\ forall cfg st d,
         passes_validation Component initValues key caller getState cfg st d ->
         (if shouldCallInitAction d
          then result_follows_call false evs
          else placeholder_only evs) = true.
Proof.
  unfold initComponent, passes_validation.
  destruct (initConfig_of Component) as [cfg|] eqn:Hcfg;
    [|exists []; rewrite app_nil_r; repeat split; intros ? ? ? (? & _); congruence].
  destruct (getInitState (options_of cfg) getState) as [st|] eqn:Hst;
    [|exists []; rewrite app_nil_r; repeat split;
      intros ? ? ? (? & ? & _); congruence].
  destruct (decide_caller cfg st key caller) as [err|d] eqn:Hd;
    [exists []; rewrite app_nil_r; repeat split;
     intros ? ? ? (? & ? & ? & _); congruence|].
  destruct (check_prepared cfg initValues st key d) eqn:Hchk;
    [exists []; rewrite app_nil_r; repeat split;
     intros ? ? ? (? & ? & ? & ?); congruence|].
  assert (forall evs,
            ordered false evs = true ->
            (if shouldCallInitAction d
             then result_follows_call false evs
             else placeholder_only evs) = true ->
            ordered false evs = true
            /\ forall cfg' st' d',
                 Some cfg = Some cfg'
                 /\ getInitState (options_of cfg') getState = Some st'
                 /\ decide_caller cfg' st' key caller = inr d'
                 /\ check_prepared cfg' initValues st' key d' = None ->
                 (if shouldCallInitAction d'
                  then result_follows_call false evs
                  else placeholder_only evs) = true) as Hpack.
  { intros evs Hord Hflag. split; [exact Hord|].
    intros cfg' st' d' (? & ? & ? & ?). replace d' with d by congruence.
    exact Hflag. }
  destruct (negb (shouldCallInitAction d) && negb (shouldCallInitActionClient d))
    eqn:Hnone.
  { exists []. split; [now rewrite app_nil_r|]. apply Hpack; [reflexivity|].
    now destruct (shouldCallInitAction d). }
  set (props := propNameValuesToObject (initProps cfg) initValues).
  set (isPrep := caller_is caller "prepareComponent").
  unfold dispatch at 1, emit. cbn [fst].
  set (started := tr ++ [Dispatch (notification false isPrep key)]).
  destruct (run_actions_events cfg d props started)
    as (evs & Hevs & _ & _ & Hord & Hflag).
  unfold then_ at 1, catch_.
  destruct (run_actions cfg d props started) as [tr1 r]. simpl in Hevs. subst tr1.
  destruct (after_actions_inert cfg isPrep key (started ++ evs) r)
    as (tail & Htail & Hinert).
  unfold then_ at 1, catch_ in Htail.
  match goal with
  | |- context [let (_, _) := ?x in _] => destruct x as [tr2 p]
  end.
  cbn [fst] in Htail. subst tr2.
  exists (Dispatch (notification false isPrep key) :: evs ++ tail).
  split; [subst started; cbn [fst]; rewrite <- !app_assoc; reflexivity|].
  apply Hpack.
  - cbn [ordered]. now rewrite ordered_app_inert.
  - destruct (shouldCallInitAction d);
      cbn [result_follows_call placeholder_only];
      [rewrite result_follows_call_app_inert | rewrite placeholder_only_app_inert];
      assumption.
Qed.

(** C7: in the events of any invocation, a call of [initActionClient]
    comes after the resolution of the result of [initAction], and
    [initAction] is not called after that resolution.  When [initAction]
    is scheduled that resolution follows its call; when it is skipped,
    [initAction] is not called at all and what has resolved is the
    placeholder, holding [undefined]. *)
Theorem initActionClient_waits_for_initAction
    (Component : component State) (initValues : list jsval) (key : string)
    (caller : option string) (getState : State) (tr : trace) :
  exists evs,
    fst (initComponent Component initValues key caller getState tr) = tr ++ evs
    /\ (forall pre props post,
          evs = pre ++ Call InitActionClient props :: post ->
          exists pre1 v pre2,
            pre = pre1 ++ Resolved InitAction v :: pre2
            /\ forall p, ~ In (Call InitAction p) (pre2 ++ post))
    /\ (forall cfg st d,
          passes_validation Component initValues key caller getState cfg st d ->
          (shouldCallInitAction d = true ->
           forall pre v post,
             evs = pre ++ Resolved InitAction v :: post ->
             exists p, In (Call InitAction p) pre)
          /\ (shouldCallInitAction d = false ->
              (forall p, ~ In (Call InitAction p) evs)
              /\ forall pre v post,
                   evs = pre ++ Resolved InitAction v :: post -> v = VUndefined)).
Proof.
  destruct (initComponent_events Component initValues key caller getState tr)
    as (evs & Hevs & Hord & Hsched).
  exists evs. split; [exact Hevs|]. split.
  - intros pre props post ->.
    destruct (ordered_sound _ _ _ _ Hord) as [[E _] | Hwait];
      [discriminate | exact Hwait].
  - intros cfg st d Hvalid. specialize (Hsched cfg st d Hvalid). split.
    + intros Hp pre v post ->. rewrite Hp in Hsched.
      destruct (result_follows_call_sound _ _ _ _ Hsched) as [E | Hcall];
        [discriminate | exact Hcall].
    + intros Hp. rewrite Hp in Hsched. now apply placeholder_only_sound.
Qed.

(** ** Actions that return no thenable *)

(** X11: an [initAction] that returns a value with no [then] method, other than
    [undefined] and [null]: the promise rejects with the flagged error,
    which names the type of the value and the component, the handler is
    not called and the end notification is dispatched. *)
Lemma plain_return_is_propagated
    (Component : component State) (cfg : initConfig State) (st : initState)
    (initValues : list jsval) (key : string) (caller : option string)
    (getState : State) (d : decision) (tr : trace) (f : action) (v : jsval) :
  passes_validation Component initValues key caller getState cfg st d ->
  shouldCallInitAction d = true ->
  initAction cfg = Some f ->
  (forall props tr0, f props tr0 = Returns (Plain v)) ->
  is_nullish v = false ->
  let props := propNameValuesToObject (initProps cfg) initValues in
  let label :=
    "initAction" +:+ (if initActionObjectParam cfg then ".server" else EmptyString) in
  initComponent Component initValues key caller getState tr
  = (tr ++ [Dispatch (start_notification caller key);
            Call InitAction props;
            Dispatch (end_notification caller key)],
     Returned (Rejected (InvalidActionReturn label cfg v)))
  /\ exists msg, InvalidActionReturn label cfg v = VError ErrorC msg true
                 /\ includes msg (typeof v)
                 /\ includes msg (componentId cfg).
Proof.
  intros Hvalid Hp Hf Hplain Hv props label. split.
  - rewrite (initComponent_scheduled _ _ _ _ _ _ _ _ _ Hvalid)
      by (now rewrite Hp).
    unfold_chain. rewrite Hp, Hf, Hplain, Hv. simpl.
    destruct (onError (options_of cfg)); rewrite <- !app_assoc; reflexivity.
  - eexists. split; [reflexivity|]. split.
    + do 3 apply includes_append_r. apply includes_prefix.
    + do 6 apply includes_append_r. apply includes_prefix.
Qed.

(** ** The whole invocation, case by case *)

Lemma calls_app (a b : trace) : calls (a ++ b) = calls a ++ calls b.
Proof. apply flat_map_app. Qed.

(** [finish] is what the end of the chain does. *)
Lemma initComponent_finish
    (Component : component State) (cfg : initConfig State) (st : initState)
    (initValues : list jsval) (key : string) (caller : option string)
    (getState : State) (d : decision) (tr tr1 : trace) (r : settled jsval) :
  passes_validation Component initValues key caller getState cfg st d ->
  shouldCallInitAction d || shouldCallInitActionClient d = true ->
  run_actions cfg d (propNameValuesToObject (initProps cfg) initValues)
    (tr ++ [Dispatch (start_notification caller key)]) = (tr1, r) ->
  initComponent Component initValues key caller getState tr
  = (tr1 ++ fst (finish cfg caller key r), Returned (snd (finish cfg caller key r))).
Proof.
  intros Hvalid Hsched Hrun.
  rewrite (initComponent_scheduled _ _ _ _ _ _ _ _ _ Hvalid Hsched).
  unfold then_ at 1, catch_. rewrite Hrun.
  unfold finish, on_rejected, on_done, call_onError, dispatch, emit, then_, ret, throw.
  destruct r as [v | e |]; cbn [fst snd].
  - reflexivity.
  - destruct (onError (options_of cfg)) as [h|]; [|reflexivity].
    destruct (get_isInvalidReturnError e) as [te | []]; cbn [fst snd].
    + now rewrite app_nil_r.
    + reflexivity.
    + destruct (h e); cbn [fst snd]; [reflexivity | now rewrite <- app_assoc].
  - now rewrite app_nil_r.
Qed.

(** The calls made by the second callback. *)
Lemma run_initActionClient_calls cfg d props serverValue tr0 :
  exists evs,
    fst (run_initActionClient cfg d props serverValue tr0) = tr0 ++ evs
    /\ (calls evs = []
        \/ (shouldCallInitActionClient d = true
            /\ calls evs = [(InitActionClient, props)])).
Proof.
  unfold run_initActionClient, call_or_resolve, expect_thenable, await, call, emit,
    then_, ret, throw, never, Promise_resolve.
  destruct (shouldCallInitActionClient d).
  - destruct (initActionClient cfg) as [g|].
    + destruct (g props (tr0 ++ [Call InitActionClient props]))
        as [e | [v | [v | e |]]]; [| destruct (is_nullish v) | | |];
        try (eexists; split; [reflexivity | right; split; reflexivity]).
      eexists. split; [cbn [fst]; now rewrite <- app_assoc|].
      right. split; reflexivity.
    + exists []. rewrite app_nil_r. split; [reflexivity | now left].
  - eexists. split; [reflexivity | now left].
Qed.

(** The calls made by the two callbacks: each scheduled action at most
    once, [initAction] first, with the props object. *)
Lemma run_actions_calls cfg d props tr0 :
  exists evs pcs ccs,
    fst (run_actions cfg d props tr0) = tr0 ++ evs
    /\ calls evs = pcs ++ ccs
    /\ (pcs = [] \/ (shouldCallInitAction d = true /\ pcs = [(InitAction, props)]))
    /\ (ccs = []
        \/ (shouldCallInitActionClient d = true
            /\ ccs = [(InitActionClient, props)])).
Proof.
  unfold run_actions. unfold then_ at 1 2, ret.
  destruct (run_initAction_events cfg d props tr0) as (evs1 & r & -> & Hfirst).
  destruct Hfirst as [(v & -> & Hevs1) | (Hr & Hp & Hevs1)].
  - destruct (run_initActionClient_calls cfg d props v (tr0 ++ evs1))
      as (evs2 & -> & Hevs2).
    exists (evs1 ++ evs2), (calls evs1), (calls evs2).
    split; [now rewrite app_assoc|]. split; [apply calls_app|].
    split; [|exact Hevs2].
    destruct (shouldCallInitAction d); subst evs1; [right | left];
      try split; reflexivity.
  - exists evs1, (calls evs1), [].
    split; [now destruct r as [v | e |]; [destruct (Hr v eq_refl) | |]|].
    split; [now rewrite app_nil_r|]. split; [|now left].
    destruct Hevs1 as [-> | ->]; [right; split; [exact Hp | reflexivity] | now left].
Qed.

(** The end of the chain calls no action, dispatches at most the end
    notification and calls the handler at most once. *)
Lemma finish_events cfg caller key r :
  let tail := fst (finish cfg caller key r) in
  calls tail = []
  /\ forallb inert tail = true
  /\ (dispatched tail = [] \/ dispatched tail = [end_notification caller key])
  /\ ((exists v, snd (finish cfg caller key r) = Fulfilled v) ->
      dispatched tail = [end_notification caller key])
  /\ (onError_calls tail = []
      \/ exists h e,
           onError (options_of cfg) = Some h
           /\ r = Rejected e
           /\ get_isInvalidReturnError e = inr false
           /\ onError_calls tail = [e]).
Proof.
  unfold finish.
  destruct r as [v | e |]; cbn [fst snd].
  - repeat split; auto.
  - destruct (onError (options_of cfg)) as [h|] eqn:Hh.
    + destruct (get_isInvalidReturnError e) as [te | []] eqn:Hflag; cbn [fst snd].
      * repeat split; auto. intros [v [=]].
      * repeat split; auto.
      * destruct (h e); cbn [fst snd].
        -- repeat split; auto; [intros [v [=]] | right; eauto 6].
        -- repeat split; auto. right; eauto 6.
    + repeat split; auto.
  - repeat split; auto. intros [v [=]].
Qed.

(** An invocation throws, does nothing, or runs the chain. *)
Lemma initComponent_cases
    (Component : component State) (initValues : list jsval) (key : string)
    (caller : option string) (getState : State) (tr : trace) :
  (exists e, initComponent Component initValues key caller getState tr = (tr, Threw e))
  \/ (exists cfg st d,
        passes_validation Component initValues key caller getState cfg st d
        /\ shouldCallInitAction d = false
        /\ shouldCallInitActionClient d = false
        /\ initComponent Component initValues key caller getState tr
           = (tr, Returned (Fulfilled VUndefined)))
  \/ (exists cfg st d evs r pcs ccs,
        passes_validation Component initValues key caller getState cfg st d
        /\ shouldCallInitAction d || shouldCallInitActionClient d = true
        /\ initComponent Component initValues key caller getState tr
           = (tr ++ Dispatch (start_notification caller key)
                 :: evs ++ fst (finish cfg caller key r),
              Returned (snd (finish cfg caller key r)))
        /\ dispatched evs = []
        /\ onError_calls evs = []
        /\ calls evs = pcs ++ ccs
        /\ (pcs = []
            \/ (shouldCallInitAction d = true
                /\ pcs = [(InitAction,
                           propNameValuesToObject (initProps cfg) initValues)]))
        /\ (ccs = []
            \/ (shouldCallInitActionClient d = true
                /\ ccs = [(InitActionClient,
                           propNameValuesToObject (initProps cfg) initValues)]))).
Proof.
  destruct (initConfig_of Component) as [cfg|] eqn:Hcfg;
    [|left; eexists; unfold initComponent; now rewrite Hcfg].
  destruct (getInitState (options_of cfg) getState) as [st|] eqn:Hst;
    [|left; eexists; unfold initComponent; now rewrite Hcfg, Hst].
  destruct (decide_caller cfg st key caller) as [err|d] eqn:Hd;
    [left; eexists; unfold initComponent; now rewrite Hcfg, Hst, Hd|].
  destruct (check_prepared cfg initValues st key d) as [err|] eqn:Hchk;
    [left; eexists; unfold initComponent; now rewrite Hcfg, Hst, Hd, Hchk|].
  assert (passes_validation Component initValues key caller getState cfg st d)
    as Hvalid by (repeat split; assumption).
  right.
  destruct (shouldCallInitAction d || shouldCallInitActionClient d) eqn:Hsched.
  2:{ apply orb_false_elim in Hsched as [Hp Hr].
      left. exists cfg, st, d. repeat split; try assumption.
      unfold initComponent. now rewrite Hcfg, Hst, Hd, Hchk, Hp, Hr. }
  right.
  set (props := propNameValuesToObject (initProps cfg) initValues).
  set (started := tr ++ [Dispatch (start_notification caller key)]).
  destruct (run_actions_events cfg d props started) as (evs & Hevs & Hdisp & Herr & _).
  destruct (run_actions_calls cfg d props started)
    as (evs' & pcs & ccs & Hevs' & Hcalls & Hpcs & Hccs).
  destruct (run_actions cfg d props started) as [tr1 r] eqn:Hrun.
  cbn [fst] in Hevs, Hevs'. subst tr1.
  apply app_inv_head in Hevs'. subst evs'.
  exists cfg, st, d, evs, r, pcs, ccs.
  split; [exact Hvalid|]. split; [exact Hsched|].
  split; [|repeat split; assumption].
  rewrite (initComponent_finish _ _ _ _ _ _ _ _ _ _ _ Hvalid Hsched Hrun).
  subst started. now rewrite <- !app_assoc.
Qed.

Lemma in_calls (w : which) (props : object) (tr : trace) :
  In (Call w props) tr <-> In (w, props) (calls tr).
Proof.
  unfold calls. rewrite in_flat_map. split.
  - intros Hin. exists (Call w props). split; [exact Hin | now left].
  - intros (ev & Hin & Hev). destruct ev; try (now destruct Hev).
    destruct Hev as [[= -> ->] | []]. exact Hin.
Qed.

(** ** What every invocation keeps to *)

(** X5: whatever the actions and the handler do, an invocation dispatches
    nothing, the start notification alone, or the start notification
    followed by the end one; and when the returned promise fulfills, a
    start notification has always been followed by its end. *)
Theorem notifications_are_start_then_end
    (Component : component State) (initValues : list jsval) (key : string)
    (caller : option string) (getState : State) (tr : trace) :
  exists evs,
    fst (initComponent Component initValues key caller getState tr) = tr ++ evs
    /\ (dispatched evs = []
        \/ dispatched evs = [start_notification caller key]
        \/ dispatched evs
           = [start_notification caller key; end_notification caller key])
    /\ ((exists v,
           snd (initComponent Component initValues key caller getState tr)
           = Returned (Fulfilled v)) ->
        dispatched evs = []
        \/ dispatched evs
           = [start_notification caller key; end_notification caller key]).
Proof.
  destruct (initComponent_cases Component initValues key caller getState tr)
    as [[e ->] | [(cfg & st & d & _ & _ & _ & ->)
                 | (cfg & st & d & evs & r & pcs & ccs
                    & _ & _ & -> & Hdisp & _)]].
  - exists []. rewrite app_nil_r. auto.
  - exists []. rewrite app_nil_r. auto.
  - eexists. split; [reflexivity|].
    destruct (finish_events cfg caller key r) as (_ & _ & Htail & Hdone & _).
    cbn [fst snd].
    change (dispatched (Dispatch (start_notification caller key)
                          :: evs ++ fst (finish cfg caller key r)))
      with (start_notification caller key
              :: dispatched (evs ++ fst (finish cfg caller key r))).
    rewrite dispatched_app, Hdisp. cbn [app]. split.
    + destruct Htail as [-> | ->]; auto.
    + intros [v [= Hv]]. rewrite Hdone by eauto. auto.
Qed.

(** X6: an invocation calls the [onError] handler at most once, and only
    when one is configured, with an error whose [isInvalidReturnError] reads
    as falsy. *)
Theorem handler_is_called_at_most_once
    (Component : component State) (initValues : list jsval) (key : string)
    (caller : option string) (getState : State) (tr : trace) :
  exists evs,
    fst (initComponent Component initValues key caller getState tr) = tr ++ evs
    /\ (onError_calls evs = []
        \/ exists cfg h e,
             initConfig_of Component = Some cfg
             /\ onError (options_of cfg) = Some h
             /\ get_isInvalidReturnError e = inr false
             /\ onError_calls evs = [e]).
Proof.
  destruct (initComponent_cases Component initValues key caller getState tr)
    as [[e ->] | [(cfg & st & d & _ & _ & _ & ->)
                 | (cfg & st & d & evs & r & pcs & ccs
                    & (Hcfg & _) & _ & -> & _ & Herr & _)]].
  - exists []. rewrite app_nil_r. auto.
  - exists []. rewrite app_nil_r. auto.
  - eexists. split; [reflexivity|].
    destruct (finish_events cfg caller key r) as (_ & _ & _ & _ & Htail).
    change (onError_calls (Dispatch (start_notification caller key)
                             :: evs ++ fst (finish cfg caller key r)))
      with (onError_calls (evs ++ fst (finish cfg caller key r))).
    rewrite onError_calls_app, Herr. cbn [app].
    destruct Htail as [-> | (h & e & Hh & _ & Hflag & ->)]; [now left|].
    right. exists cfg, h, e. auto.
Qed.

(** X7: an invocation calls each action at most once, [initAction] before
    [initActionClient], each only when the decision of a validated
    invocation schedules it, and with the object made of the init props and
    their values. *)
Theorem actions_are_called_at_most_once
    (Component : component State) (initValues : list jsval) (key : string)
    (caller : option string) (getState : State) (tr : trace) :
  exists evs pcs ccs,
    fst (initComponent Component initValues key caller getState tr) = tr ++ evs
    /\ calls evs = pcs ++ ccs
    /\ (pcs = []
        \/ exists cfg st d,
             passes_validation Component initValues key caller getState cfg st d
             /\ shouldCallInitAction d = true
             /\ pcs = [(InitAction,
                        propNameValuesToObject (initProps cfg) initValues)])
    /\ (ccs = []
        \/ exists cfg st d,
             passes_validation Component initValues key caller getState cfg st d
             /\ shouldCallInitActionClient d = true
             /\ ccs = [(InitActionClient,
                        propNameValuesToObject (initProps cfg) initValues)]).
Proof.
  destruct (initComponent_cases Component initValues key caller getState tr)
    as [[e ->] | [(cfg & st & d & _ & _ & _ & ->)
                 | (cfg & st & d & evs & r & pcs & ccs
                    & Hvalid & _ & -> & _ & _ & Hcalls & Hpcs & Hccs)]].
  - exists [], [], []. rewrite app_nil_r. auto.
  - exists [], [], []. rewrite app_nil_r. auto.
  - eexists _, pcs, ccs. split; [reflexivity|].
    destruct (finish_events cfg caller key r) as (Htail & _).
    change (calls (Dispatch (start_notification caller key)
                     :: evs ++ fst (finish cfg caller key r)))
      with (calls (evs ++ fst (finish cfg caller key r))).
    rewrite calls_app, Htail, app_nil_r. split; [exact Hcalls|]. split.
    + destruct Hpcs as [-> | [Hp ->]]; [now left|]. right. exists cfg, st, d. auto.
    + destruct Hccs as [-> | [Hr ->]]; [now left|]. right. exists cfg, st, d. auto.
Qed.

(** X8: [initActionClient] is never called when the caller is
    [prepareComponent] or [willMount], whatever the config and the state. *)
Theorem client_action_not_called_on_prepare_or_willMount
    (Component : component State) (initValues : list jsval) (key : string)
    (caller : option string) (getState : State) (tr : trace) :
  caller = Some "prepareComponent" \/ caller = Some "willMount" ->
  exists evs,
    fst (initComponent Component initValues key caller getState tr) = tr ++ evs
    /\ forall props, ~ In (Call InitActionClient props) evs.
Proof.
  intros Hcaller.
  destruct (initComponent_cases Component initValues key caller getState tr)
    as [[e ->] | [(cfg & st & d & _ & _ & _ & ->)
                 | (cfg & st & d & evs & r & pcs & ccs
                    & (_ & _ & Hd & _) & _ & -> & _ & _ & Hcalls & Hpcs & Hccs)]].
  - exists []. rewrite app_nil_r. auto.
  - exists []. rewrite app_nil_r. auto.
  - eexists. split; [reflexivity|].
    assert (shouldCallInitActionClient d = false) as Hr.
    { destruct Hcaller as [-> | ->].
      - pose proof (decide_caller_named cfg st key PREPARE_PASS) as E.
        cbv [caller_name] in E. rewrite E in Hd. now injection Hd as <-.
      - pose proof (decide_caller_named cfg st key WILL_MOUNT) as E.
        cbv [caller_name] in E. rewrite E in Hd. now injection Hd as <-. }
    destruct Hccs as [-> | [E _]]; [|congruence].
    intros props Hin. apply in_calls in Hin.
    destruct (finish_events cfg caller key r) as (Htail & _).
    change (calls (Dispatch (start_notification caller key)
                     :: evs ++ fst (finish cfg caller key r)))
      with (calls (evs ++ fst (finish cfg caller key r))) in Hin.
    rewrite calls_app, Htail, Hcalls, !app_nil_r in Hin.
    destruct Hpcs as [-> | [_ ->]]; [exact Hin|].
    destruct Hin as [[=] | []].
Qed.

(** ** The two callbacks, step by step *)

(** The first callback when [initAction] is called, by what the call
    gives. *)
Lemma run_initAction_called cfg d props tr0 f :
  shouldCallInitAction d = true ->
  initAction cfg = Some f ->
  run_initAction cfg d props tr0
  = match f props (tr0 ++ [Call InitAction props]) with
    | Throws e => (tr0 ++ [Call InitAction props], Rejected e)
    | Returns (Plain v) =>
        (tr0 ++ [Call InitAction props],
         Rejected
           (if is_nullish v then TypeError_read "then" v
            else InvalidActionReturn
                   ("initAction"
                      +:+ (if initActionObjectParam cfg then ".server"
                           else EmptyString))
                   cfg v))
    | Returns (Thenable (Resolves v)) =>
        (tr0 ++ [Call InitAction props; Resolved InitAction v], Fulfilled v)
    | Returns (Thenable (Rejects e)) => (tr0 ++ [Call InitAction props], Rejected e)
    | Returns (Thenable NeverSettles) => (tr0 ++ [Call InitAction props], Pending)
    end.
Proof.
  intros Hp Hf.
  unfold run_initAction, call_or_resolve, expect_thenable, await, call, emit,
    then_, ret, throw, never. rewrite Hp, Hf.
  destruct (f props (tr0 ++ [Call InitAction props])) as [e | [v | [v | e |]]];
    try reflexivity.
  - now destruct (is_nullish v).
  - now rewrite <- app_assoc.
Qed.

(** The second callback when [initActionClient] is called. *)
Lemma run_initActionClient_called cfg d props serverValue tr0 g :
  shouldCallInitActionClient d = true ->
  initActionClient cfg = Some g ->
  run_initActionClient cfg d props serverValue tr0
  = match g props (tr0 ++ [Call InitActionClient props]) with
    | Throws e => (tr0 ++ [Call InitActionClient props], Rejected e)
    | Returns (Plain v) =>
        (tr0 ++ [Call InitActionClient props],
         Rejected
           (if is_nullish v then TypeError_read "then" v
            else InvalidActionReturn "initAction.client" cfg v))
    | Returns (Thenable (Resolves v)) =>
        (tr0 ++ [Call InitActionClient props; Resolved InitActionClient v],
         Fulfilled
           (if shouldCallInitAction d then VArray [serverValue; v] else v))
    | Returns (Thenable (Rejects e)) =>
        (tr0 ++ [Call InitActionClient props], Rejected e)
    | Returns (Thenable NeverSettles) =>
        (tr0 ++ [Call InitActionClient props], Pending)
    end.
Proof.
  intros Hr Hg.
  unfold run_initActionClient, call_or_resolve, expect_thenable, await, call, emit,
    then_, ret, throw, never. rewrite Hr, Hg.
  destruct (g props (tr0 ++ [Call InitActionClient props]))
    as [e | [v | [v | e |]]]; try reflexivity.
  - now destruct (is_nullish v).
  - rewrite <- app_assoc. now destruct (shouldCallInitAction d).
Qed.

(** The second callback only runs when the first one fulfills. *)
Lemma run_actions_steps cfg d props tr0 :
  run_actions cfg d props tr0
  = match run_initAction cfg d props tr0 with
    | (tr1, Fulfilled serverValue) =>
        run_initActionClient cfg d props serverValue tr1
    | (tr1, Rejected e) => (tr1, Rejected e)
    | (tr1, Pending) => (tr1, Pending)
    end.
Proof.
  unfold run_actions. unfold then_ at 1 2, ret.
  now destruct (run_initAction cfg d props tr0) as [tr1 [v | e |]].
Qed.

Lemma run_actions_pending_scheduled cfg d props tr0 tr1 :
  run_actions cfg d props tr0 = (tr1, Pending) ->
  shouldCallInitAction d || shouldCallInitActionClient d = true.
Proof.
  destruct (shouldCallInitAction d) eqn:Hp, (shouldCallInitActionClient d) eqn:Hr;
    try reflexivity.
  unfold_chain. rewrite Hp, Hr. cbn. discriminate.
Qed.

(** ** What the decision means for a caller *)

(** X2: with the caller [prepareComponent], a key that is already in
    [prepared], complete or still pending, is not prepared again: the
    thunk returns a resolved promise and the trace is left as it was. *)
Theorem prepared_key_is_not_prepared_again
    (Component : component State) (cfg : initConfig State) (st : initState)
    (initValues : list jsval) (key : string) (getState : State) (tr : trace)
    (b : bool) :
  initConfig_of Component = Some cfg ->
  getInitState (options_of cfg) getState = Some st ->
  prepared st !! key = Some b ->
  initComponent Component initValues key (Some "prepareComponent") getState tr
  = (tr, Returned (Fulfilled VUndefined)).
Proof.
  intros Hcfg Hst Hkey.
  pose proof (decide_caller_named cfg st key PREPARE_PASS) as Hd.
  cbv [caller_name decision_table] in Hd.
  rewrite Hkey, (bool_decide_eq_true_2 (is_Some (Some b))) in Hd by eauto.
  unfold initComponent, check_prepared. rewrite Hcfg, Hst, Hd.
  cbn [errorNotPrepared shouldCallInitAction shouldCallInitActionClient negb].
  now rewrite andb_false_r.
Qed.

(** X3: with the caller [willMount], mode PREPARE and [allowLazy] off, no
    action runs and nothing is dispatched.  With an [initAction] the thunk
    throws unless the key is recorded as complete; without one it never
    throws. *)
Theorem strict_willMount_runs_nothing
    (Component : component State) (cfg : initConfig State) (st : initState)
    (initValues : list jsval) (key : string) (getState : State) (tr : trace) :
  initConfig_of Component = Some cfg ->
  getInitState (options_of cfg) getState = Some st ->
  mode st = MODE_PREPARE ->
  allowLazy (options_of cfg) = false ->
  initComponent Component initValues key (Some "willMount") getState tr
  = (tr,
     if truthy (initAction cfg)
     then match prepared st !! key with
          | None => Threw (PreparationMissing cfg initValues)
          | Some false => Threw (PreparationPending cfg)
          | Some true => Returned (Fulfilled VUndefined)
          end
     else Returned (Fulfilled VUndefined)).
Proof.
  intros Hcfg Hst Hmode Hlazy.
  pose proof (decide_caller_named cfg st key WILL_MOUNT) as Hd.
  cbv [caller_name decision_table] in Hd. rewrite Hmode, Hlazy in Hd.
  unfold initComponent, check_prepared. rewrite Hcfg, Hst, Hd.
  cbn [errorNotPrepared shouldCallInitAction shouldCallInitActionClient negb andb orb].
  rewrite !andb_false_r. cbn [orb andb negb].
  destruct (truthy (initAction cfg)); cbn [andb negb]; [|reflexivity].
  now destruct (prepared st !! key) as [[|]|].
Qed.

(** X4: with [initSelf] set to NEVER and the mode INIT_SELF, mounting (the
    callers [willMount] and [didMount]) runs nothing and dispatches
    nothing. *)
Theorem initSelf_never_skips_mount_init
    (Component : component State) (cfg : initConfig State) (st : initState)
    (initValues : list jsval) (key : string) (caller : option string)
    (getState : State) (tr : trace) :
  initConfig_of Component = Some cfg ->
  getInitState (options_of cfg) getState = Some st ->
  mode st = MODE_INIT_SELF ->
  initSelf (options_of cfg) = INIT_SELF_NEVER ->
  caller = Some "willMount" \/ caller = Some "didMount" ->
  initComponent Component initValues key caller getState tr
  = (tr, Returned (Fulfilled VUndefined)).
Proof.
  intros Hcfg Hst Hmode Hnever [-> | ->].
  - pose proof (decide_caller_named cfg st key WILL_MOUNT) as Hd.
    cbv [caller_name decision_table] in Hd. rewrite Hmode, Hnever in Hd.
    unfold initComponent, check_prepared. rewrite Hcfg, Hst, Hd.
    cbn [errorNotPrepared shouldCallInitAction shouldCallInitActionClient
         negb andb orb].
    now rewrite !andb_false_r.
  - pose proof (decide_caller_named cfg st key DID_MOUNT) as Hd.
    cbv [caller_name decision_table] in Hd. rewrite Hmode, Hnever in Hd.
    unfold initComponent, check_prepared. rewrite Hcfg, Hst, Hd.
    cbn [errorNotPrepared shouldCallInitAction shouldCallInitActionClient
         negb andb orb].
    now rewrite !andb_false_r.
Qed.

(** X16: with the caller [willReceiveProps] a supplied [initAction] is
    always called, right after the start notification, whatever the mode,
    the prepared record, [initSelf] and [allowLazy]. *)
Theorem willReceiveProps_always_calls_initAction
    (Component : component State) (cfg : initConfig State) (st : initState)
    (initValues : list jsval) (key : string) (getState : State) (tr : trace)
    (f : action) :
  initConfig_of Component = Some cfg ->
  getInitState (options_of cfg) getState = Some st ->
  initAction cfg = Some f ->
  exists rest,
    fst (initComponent Component initValues key (Some "willReceiveProps")
           getState tr)
    = tr ++ Dispatch (start_notification (Some "willReceiveProps") key)
         :: Call InitAction (propNameValuesToObject (initProps cfg) initValues)
         :: rest.
Proof.
  intros Hcfg Hst Hf.
  pose proof (decide_caller_named cfg st key WILL_RECEIVE_INPUTS) as Hd.
  cbv [caller_name decision_table] in Hd. rewrite Hf in Hd. cbn [truthy] in Hd.
  set (d := {| errorNotPrepared := false;
               shouldCallInitAction := true;
               shouldCallInitActionClient := truthy (initActionClient cfg) |}) in *.
  set (props := propNameValuesToObject (initProps cfg) initValues).
  set (started := tr ++ [Dispatch (start_notification (Some "willReceiveProps") key)]).
  assert (passes_validation Component initValues key (Some "willReceiveProps")
            getState cfg st d) as Hvalid by (repeat split; assumption).
  assert (exists rest r,
            run_actions cfg d props started
            = (started ++ Call InitAction props :: rest, r)) as (rest & r & Hrun).
  { rewrite run_actions_steps, (run_initAction_called cfg d props started f eq_refl Hf).
    destruct (f props (started ++ [Call InitAction props]))
      as [e | [v | [v | e |]]]; try (now eexists _, _).
    destruct (run_initActionClient_events cfg d props v
                (started ++ [Call InitAction props; Resolved InitAction v]))
      as (evs2 & Hevs2 & _).
    destruct (run_initActionClient cfg d props v _) as [tr2 r2].
    cbn [fst] in Hevs2. subst tr2. eexists _, r2.
    now rewrite <- app_assoc. }
  rewrite (initComponent_finish _ _ _ _ _ _ _ _ _ _ _ Hvalid eq_refl Hrun).
  cbn [fst]. subst started. eexists. now rewrite <- !app_assoc.
Qed.

(** ** Failing and hanging actions *)

(** X9: when [initAction] is called and does not hand back a thenable that
    resolves (it throws, returns something else, or its thenable rejects
    or never settles), nothing is called after it: in particular
    [initActionClient] does not run, even when scheduled. *)
Theorem failed_initAction_stops_initActionClient
    (Component : component State) (cfg : initConfig State) (st : initState)
    (initValues : list jsval) (key : string) (caller : option string)
    (getState : State) (d : decision) (tr : trace) (f : action) :
  passes_validation Component initValues key caller getState cfg st d ->
  shouldCallInitAction d = true ->
  initAction cfg = Some f ->
  let props := propNameValuesToObject (initProps cfg) initValues in
  (forall v,
     f props ((tr ++ [Dispatch (start_notification caller key)])
                ++ [Call InitAction props])
     <> Returns (Thenable (Resolves v))) ->
  exists tail,
    fst (initComponent Component initValues key caller getState tr)
    = tr ++ Dispatch (start_notification caller key)
         :: Call InitAction props :: tail
    /\ calls tail = [].
Proof.
  intros Hvalid Hp Hf props Hfails.
  set (started := tr ++ [Dispatch (start_notification caller key)]) in *.
  assert (exists r, run_actions cfg d props started
                    = (started ++ [Call InitAction props], r)) as [r Hrun].
  { rewrite run_actions_steps, (run_initAction_called cfg d props started f Hp Hf).
    destruct (f props (started ++ [Call InitAction props]))
      as [e | [v | [v | e |]]]; try (now eexists).
    now destruct (Hfails v). }
  rewrite (initComponent_finish _ _ _ _ _ _ _ _ _ _ _ Hvalid
             ltac:(now rewrite Hp) Hrun).
  cbn [fst]. exists (fst (finish cfg caller key r)).
  split; [subst started; now rewrite <- !app_assoc|].
  apply finish_events.
Qed.

(** X10: when the two callbacks stay pending (an action handed back a
    thenable that never settles), so does the returned promise: the start
    notification is the only one dispatched and the handler is not
    called. *)
Theorem pending_actions_leave_the_call_pending
    (Component : component State) (cfg : initConfig State) (st : initState)
    (initValues : list jsval) (key : string) (caller : option string)
    (getState : State) (d : decision) (tr tr1 : trace) :
  passes_validation Component initValues key caller getState cfg st d ->
  run_actions cfg d (propNameValuesToObject (initProps cfg) initValues)
    (tr ++ [Dispatch (start_notification caller key)]) = (tr1, Pending) ->
  initComponent Component initValues key caller getState tr
  = (tr1, Returned Pending)
  /\ dispatched tr1 = dispatched tr ++ [start_notification caller key]
  /\ onError_calls tr1 = onError_calls tr.
Proof.
  intros Hvalid Hrun.
  pose proof (run_actions_pending_scheduled _ _ _ _ _ Hrun) as Hsched.
  destruct (run_actions_quiet _ _ _ _ _ _ Hrun) as [Hd He].
  rewrite (initComponent_finish _ _ _ _ _ _ _ _ _ _ _ Hvalid Hsched Hrun).
  cbn [finish fst snd]. rewrite app_nil_r. split; [reflexivity|].
  rewrite Hd, He, dispatched_app, onError_calls_app. cbn.
  now rewrite app_nil_r.
Qed.

(** X12: when [initActionClient] is called, after [initAction] resolved or
    was skipped, and returns a value with no [then] method other than
    [undefined] and [null], the promise rejects with the flagged error,
    which names [initAction.client], the type of the value and the
    component; the end notification follows and the handler is not
    reached. *)
Theorem client_plain_return_is_propagated
    (Component : component State) (cfg : initConfig State) (st : initState)
    (initValues : list jsval) (key : string) (caller : option string)
    (getState : State) (d : decision) (tr tr1 : trace) (g : action)
    (serverValue v : jsval) :
  passes_validation Component initValues key caller getState cfg st d ->
  shouldCallInitActionClient d = true ->
  initActionClient cfg = Some g ->
  let props := propNameValuesToObject (initProps cfg) initValues in
  run_initAction cfg d props (tr ++ [Dispatch (start_notification caller key)])
  = (tr1, Fulfilled serverValue) ->
  g props (tr1 ++ [Call InitActionClient props]) = Returns (Plain v) ->
  is_nullish v = false ->
  initComponent Component initValues key caller getState tr
  = (tr1 ++ [Call InitActionClient props; Dispatch (end_notification caller key)],
     Returned (Rejected (InvalidActionReturn "initAction.client" cfg v)))
  /\ exists msg,
       InvalidActionReturn "initAction.client" cfg v = VError ErrorC msg true
       /\ includes msg "initAction.client"
       /\ includes msg (typeof v)
       /\ includes msg (componentId cfg).
Proof.
  intros Hvalid Hr Hg props Hfirst Hplain Hv. split.
  - assert (run_actions cfg d props
              (tr ++ [Dispatch (start_notification caller key)])
            = (tr1 ++ [Call InitActionClient props],
               Rejected (InvalidActionReturn "initAction.client" cfg v))) as Hrun.
    { rewrite run_actions_steps, Hfirst.
      rewrite (run_initActionClient_called cfg d props serverValue tr1 g Hr Hg).
      now rewrite Hplain, Hv. }
    rewrite (initComponent_finish _ _ _ _ _ _ _ _ _ _ _ Hvalid
               ltac:(rewrite Hr; apply orb_true_r) Hrun).
    unfold finish. change (get_isInvalidReturnError
                             (InvalidActionReturn "initAction.client" cfg v))
      with (@inr jsval bool true).
    destruct (onError (options_of cfg)); cbn [fst snd];
      now rewrite <- app_assoc.
  - eexists. split; [reflexivity|]. split; [|split].
    + apply includes_append_r. apply includes_prefix.
    + do 3 apply includes_append_r. apply includes_prefix.
    + do 6 apply includes_append_r. apply includes_prefix.
Qed.

(** X13: when [initAction] is called and returns [undefined] or [null],
    the failure is the [TypeError] of reading [then] off that value, not
    the flagged error.  Without a handler the promise rejects with it
    after the end notification; with a handler that returns, the handler
    gets it and the promise fulfills. *)
Theorem nullish_return_is_an_unflagged_TypeError
    (Component : component State) (cfg : initConfig State) (st : initState)
    (initValues : list jsval) (key : string) (caller : option string)
    (getState : State) (d : decision) (tr : trace) (f : action) (v : jsval) :
  passes_validation Component initValues key caller getState cfg st d ->
  shouldCallInitAction d = true ->
  initAction cfg = Some f ->
  let props := propNameValuesToObject (initProps cfg) initValues in
  f props ((tr ++ [Dispatch (start_notification caller key)])
             ++ [Call InitAction props]) = Returns (Plain v) ->
  is_nullish v = true ->
  (onError (options_of cfg) = None ->
   initComponent Component initValues key caller getState tr
   = (tr ++ [Dispatch (start_notification caller key);
             Call InitAction props;
             Dispatch (end_notification caller key)],
      Returned (Rejected (TypeError_read "then" v))))
  /\ (forall h,
        onError (options_of cfg) = Some h ->
        h (TypeError_read "then" v) = None ->
        initComponent Component initValues key caller getState tr
        = (tr ++ [Dispatch (start_notification caller key);
                  Call InitAction props;
                  OnError (TypeError_read "then" v);
                  Dispatch (end_notification caller key)],
           Returned (Fulfilled VUndefined))).
Proof.
  intros Hvalid Hp Hf props Hplain Hv.
  assert (run_actions cfg d props
            (tr ++ [Dispatch (start_notification caller key)])
          = ((tr ++ [Dispatch (start_notification caller key)])
               ++ [Call InitAction props],
             Rejected (TypeError_read "then" v))) as Hrun.
  { rewrite run_actions_steps, (run_initAction_called cfg d props _ f Hp Hf).
    now rewrite Hplain, Hv. }
  rewrite (initComponent_finish _ _ _ _ _ _ _ _ _ _ _ Hvalid
             ltac:(now rewrite Hp) Hrun).
  unfold finish. split.
  - intros ->. cbn [fst snd]. now rewrite <- !app_assoc.
  - intros h -> Hh.
    change (get_isInvalidReturnError (TypeError_read "then" v))
      with (@inr jsval bool false).
    rewrite Hh. cbn [fst snd]. now rewrite <- !app_assoc.
Qed.

(** ** The message of a PrepareValidationError *)

Lemma append_eq_self (s t : string) : s +:+ t = s -> t = EmptyString.
Proof.
  induction s as [|a s IH]; intros E; [exact E|].
  change (String a (s +:+ t) = String a s) in E. injection E as E. now apply IH.
Qed.

Lemma includes_join (sep p : string) (parts : list string) :
  In p parts -> includes (join sep parts) p.
Proof.
  induction parts as [|p0 rest IH]; intros Hin; [destruct Hin|].
  destruct rest as [|p1 rest].
  - destruct Hin as [-> | []]. apply includes_refl.
  - change (join sep (p0 :: p1 :: rest))
      with (p0 +:+ sep +:+ join sep (p1 :: rest)).
    destruct Hin as [-> | Hin]; [apply includes_prefix|].
    do 2 apply includes_append_r. now apply IH.
Qed.

(** X14: the message of a [PrepareValidationError] starts with the message
    given to the constructor, and is that message alone exactly when the
    error id is missing or empty, or the meta object is missing. *)
Theorem PrepareValidationError_keeps_message
    (message : string) (errorId : option string) (meta : option object) :
  exists suffix,
    PrepareValidationError message errorId meta
    = VError PrepareValidationErrorC (message +:+ suffix) false
    /\ (suffix = EmptyString
        <-> errorId = None \/ errorId = Some EmptyString \/ meta = None).
Proof.
  unfold PrepareValidationError.
  destruct errorId as [id|]; [destruct meta as [m|]|].
  - destruct (String.eqb_spec id EmptyString) as [-> | Hid].
    + exists EmptyString. rewrite append_empty_r. split; [reflexivity|]. tauto.
    + eexists. split; [reflexivity|]. split.
      * intros E. apply (f_equal String.length) in E. discriminate E.
      * intros [[=] | [[= ->] | [=]]]. now destruct Hid.
  - exists EmptyString. rewrite append_empty_r. split; [reflexivity|]. tauto.
  - exists EmptyString. rewrite append_empty_r. split; [reflexivity|]. tauto.
Qed.

(** X15: with an error id that is not empty and a meta object, the message
    ends with a link made of the base address of the error pages, the error
    id and [.html#], followed by the meta entries; each entry of the meta
    object is there as [key=value], the value URI-encoded. *)
Theorem PrepareValidationError_link_lists_meta
    (message id : string) (meta : object) (k : string) (v : jsval) :
  id <> EmptyString ->
  In (k, v) meta ->
  exists msg,
    PrepareValidationError message (Some id) (Some meta)
    = VError PrepareValidationErrorC msg false
    /\ includes msg (ERROR_BASE_URL +:+ id +:+ ".html#")
    /\ includes msg (k +:+ "=" +:+ encodeURIComponent v).
Proof.
  intros Hid Hin. unfold PrepareValidationError.
  destruct (String.eqb_spec id EmptyString) as [-> | _]; [now destruct Hid|].
  eexists. split; [reflexivity|]. split.
  - do 4 apply includes_append_r.
    rewrite <- (append_assoc id ".html#"), <- (append_assoc ERROR_BASE_URL).
    apply includes_prefix.
  - do 7 apply includes_append_r. apply includes_join.
    apply (in_map (fun kv => fst kv +:+ "=" +:+ encodeURIComponent (snd kv))
             meta (k, v) Hin).
Qed.

End InitComponent.

(** ** The properties on sample components *)

Abbreviation sample_run :=
  (@initComponent initState zip_props sample_stringify sample_encode "INIT").
Abbreviation sample_valid :=
  (@passes_validation initState zip_props sample_stringify sample_encode).
Abbreviation sample_start := (start_notification "INIT").
Abbreviation sample_end := (end_notification "INIT").

Lemma decision_engine_matches_table_witness :
  decide_caller
    (sample_config (Some (resolves_with VNull)) (Some (resolves_with VNull))
       (sample_options None INIT_SELF_ASYNC true))
    init_self_state sample_key (Some "didMount")
  = inr {| errorNotPrepared := false;
           shouldCallInitAction := true;
           shouldCallInitActionClient := true |}
  /\ sample_run
       (sample_component (Some (resolves_with VNull)) None
          (sample_options None INIT_SELF_ASYNC true))
       sample_values sample_key (Some "render") init_self_state []
     = ([], Threw (InvalidCaller (Some "render"))).
Proof.
  split.
  - exact (proj1
             (decision_engine_matches_table zip_props sample_stringify
                sample_encode "INIT"
                (sample_config (Some (resolves_with VNull))
                   (Some (resolves_with VNull))
                   (sample_options None INIT_SELF_ASYNC true))
                init_self_state sample_key (Some "didMount"))
             DID_MOUNT eq_refl).
  - refine (proj2
              (proj2
                 (decision_engine_matches_table zip_props sample_stringify
                    sample_encode "INIT"
                    (sample_config (Some (resolves_with VNull)) None
                       (sample_options None INIT_SELF_ASYNC true))
                    init_self_state sample_key (Some "render"))
                 _)
              (sample_component (Some (resolves_with VNull)) None
                 (sample_options None INIT_SELF_ASYNC true))
              sample_values init_self_state [] eq_refl eq_refl).
    intros []; discriminate.
Defined.

Lemma validation_failure_throws_before_any_effect_witness :
  sample_run
    (sample_component (Some (resolves_with VNull)) None
       (sample_options None INIT_SELF_ASYNC false))
    sample_values sample_key (Some "willMount")
    (prepare_state {[ sample_key := false ]}) []
  = ([], Threw
           (PreparationPending sample_encode
              (sample_config (Some (resolves_with VNull)) None
                 (sample_options None INIT_SELF_ASYNC false)))).
Proof.
  apply validation_failure_throws_before_any_effect.
  eapply fails_PreparationPending; reflexivity.
Defined.

Lemma unprepared_component_is_refused_witness :
  sample_run
    (sample_component (Some (resolves_with VNull)) None
       (sample_options None INIT_SELF_ASYNC false))
    sample_values sample_key (Some "willMount") (prepare_state ∅) []
  = ([], Threw
           (PreparationMissing zip_props sample_stringify sample_encode
              (sample_config (Some (resolves_with VNull)) None
                 (sample_options None INIT_SELF_ASYNC false))
              sample_values)).
Proof.
  refine (proj1
            (proj1
               (proj2
                  (unprepared_component_is_refused zip_props sample_stringify
                     sample_encode "INIT"
                     (sample_component (Some (resolves_with VNull)) None
                        (sample_options None INIT_SELF_ASYNC false))
                     (sample_config (Some (resolves_with VNull)) None
                        (sample_options None INIT_SELF_ASYNC false))
                     (prepare_state ∅) sample_values
                     sample_key (Some "willMount") (prepare_state ∅)
                     {| errorNotPrepared := true;
                        shouldCallInitAction := false;
                        shouldCallInitActionClient := false |}
                     [] eq_refl eq_refl _ eq_refl))
               _)).
  - reflexivity.
  - reflexivity.
Defined.

Lemma nothing_scheduled_is_a_no_op_witness :
  sample_run
    (sample_component (Some (resolves_with VNull)) None
       (sample_options None INIT_SELF_ASYNC false))
    sample_values sample_key (Some "prepareComponent")
    (prepare_state {[ sample_key := true ]}) []
  = ([], Returned (Fulfilled VUndefined)).
Proof.
  eapply (nothing_scheduled_is_a_no_op zip_props sample_stringify sample_encode
            "INIT" _
            (sample_config (Some (resolves_with VNull)) None
               (sample_options None INIT_SELF_ASYNC false))
            (prepare_state {[ sample_key := true ]}) _ _ _ _
            {| errorNotPrepared := false;
               shouldCallInitAction := false;
               shouldCallInitActionClient := false |}).
  - repeat split; reflexivity.
  - reflexivity.
  - reflexivity.
Defined.

Lemma failing_component_valid (h : option handler) :
  sample_valid (failing_component h) sample_values sample_key
    (Some "willReceiveProps") init_self_state (failing_config h) init_self_state
    only_initAction.
Proof. repeat split; reflexivity. Defined.

Lemma end_notification_once_on_each_exit_witness :
  exists tr',
    sample_run (failing_component (Some quiet_handler)) sample_values sample_key
      (Some "willReceiveProps") init_self_state []
    = (tr', Returned (Fulfilled VUndefined))
    /\ dispatched tr'
       = [sample_start (Some "willReceiveProps") sample_key;
          sample_end (Some "willReceiveProps") sample_key]
    /\ end_count tr' = 1.
Proof.
  apply (end_notification_once_on_each_exit zip_props sample_stringify
           sample_encode "INIT" (failing_component (Some quiet_handler))
           (failing_config (Some quiet_handler)) init_self_state sample_values
           sample_key (Some "willReceiveProps") init_self_state only_initAction
           []
           [Dispatch (sample_start (Some "willReceiveProps") sample_key);
            Call InitAction sample_props]
           (Rejected boom) (Fulfilled VUndefined)).
  - apply failing_component_valid.
  - reflexivity.
  - reflexivity.
  - right. left. exists boom, quiet_handler. repeat split; reflexivity.
Defined.

Lemma handled_failure_is_shielded_witness :
  sample_run (failing_component (Some quiet_handler)) sample_values sample_key
    (Some "willReceiveProps") init_self_state []
  = ([Dispatch (sample_start (Some "willReceiveProps") sample_key);
      Call InitAction sample_props;
      OnError boom;
      Dispatch (sample_end (Some "willReceiveProps") sample_key)],
     Returned (Fulfilled VUndefined)).
Proof.
  apply (handled_failure_is_shielded zip_props sample_stringify sample_encode
           "INIT" (failing_component (Some quiet_handler))
           (failing_config (Some quiet_handler)) init_self_state sample_values
           sample_key (Some "willReceiveProps") init_self_state only_initAction
           []
           [Dispatch (sample_start (Some "willReceiveProps") sample_key);
            Call InitAction sample_props]
           boom quiet_handler).
  - apply failing_component_valid.
  - reflexivity.
  - reflexivity.
  - reflexivity.
  - reflexivity.
Defined.

Lemma throwing_handler_rejects_without_end_witness :
  sample_run (failing_component (Some (throwing_handler handler_failed)))
    sample_values sample_key (Some "willReceiveProps") init_self_state []
  = ([Dispatch (sample_start (Some "willReceiveProps") sample_key);
      Call InitAction sample_props;
      OnError boom],
     Returned (Rejected handler_failed)).
Proof.
  apply (throwing_handler_rejects_without_end zip_props sample_stringify
           sample_encode "INIT"
           (failing_component (Some (throwing_handler handler_failed)))
           (failing_config (Some (throwing_handler handler_failed)))
           init_self_state sample_values sample_key (Some "willReceiveProps")
           init_self_state only_initAction []
           [Dispatch (sample_start (Some "willReceiveProps") sample_key);
            Call InitAction sample_props]
           boom handler_failed (throwing_handler handler_failed)).
  - apply failing_component_valid.
  - reflexivity.
  - reflexivity.
  - reflexivity.
  - reflexivity.
Defined.

Lemma success_result_is_combined_witness :
  exists tr',
    sample_run both_component sample_values sample_key (Some "didMount")
      init_self_state []
    = (tr', Returned (Fulfilled (VArray [VString "P"; VString "C"]))).
Proof.
  apply (success_result_is_combined zip_props sample_stringify sample_encode
           "INIT" both_component both_config init_self_state sample_values
           sample_key (Some "didMount") init_self_state both_actions []
           (VString "P") (VString "C")).
  - repeat split; reflexivity.
  - intros f _ [= <-] tr0. reflexivity.
  - intros g _ [= <-] tr0. reflexivity.
Defined.

Lemma initActionClient_waits_for_initAction_witness :
  exists evs,
    fst (sample_run both_component sample_values sample_key (Some "didMount")
           init_self_state []) = [] ++ evs
    /\ (forall pre props post,
          evs = pre ++ Call InitActionClient props :: post ->
          exists pre1 v pre2,
            pre = pre1 ++ Resolved InitAction v :: pre2
            /\ forall p, ~ In (Call InitAction p) (pre2 ++ post))
    /\ (forall pre v post,
          evs = pre ++ Resolved InitAction v :: post ->
          exists p, In (Call InitAction p) pre).
Proof.
  destruct (initActionClient_waits_for_initAction zip_props sample_stringify
              sample_encode "INIT" both_component sample_values sample_key
              (Some "didMount") init_self_state [])
    as (evs & Hevs & Hwait & Hsched).
  exists evs. split; [exact Hevs|]. split; [exact Hwait|].
  refine (proj1 (Hsched both_config init_self_state both_actions _) eq_refl).
  repeat split; reflexivity.
Defined.

(** C2, as stated, fails: with a handler that throws, an invocation that
    passes validation and schedules [initAction] ends rejected and has
    dispatched no end notification. *)
Lemma end_notification_missing_when_handler_throws :
  ~ (forall (Component : component initState) initValues key caller getState
            cfg st d tr' p,
       sample_valid Component initValues key caller getState cfg st d ->
       shouldCallInitAction d || shouldCallInitActionClient d = true ->
       sample_run Component initValues key caller getState [] = (tr', Returned p) ->
       p <> Pending ->
       end_count tr' = 1).
Proof.
  intros Hclaim.
  specialize
    (Hclaim (failing_component (Some (throwing_handler handler_failed)))
       sample_values sample_key (Some "willReceiveProps") init_self_state
       (failing_config (Some (throwing_handler handler_failed)))
       init_self_state only_initAction
       [Dispatch (sample_start (Some "willReceiveProps") sample_key);
        Call InitAction sample_props;
        OnError boom]
       (Rejected handler_failed)
       (failing_component_valid _) eq_refl eq_refl).
  assert (Rejected handler_failed <> @Pending jsval) as Hp by discriminate.
  specialize (Hclaim Hp). discriminate Hclaim.
Qed.

(** C5, as stated, fails: the failure is not flagged and a handler is
    configured, yet the call does not resolve, because the handler
    throws. *)
Lemma handler_that_throws_does_not_shield :
  ~ (forall (Component : component initState) initValues key caller getState
            cfg st d tr1 e h,
       sample_valid Component initValues key caller getState cfg st d ->
       run_actions cfg d (zip_props (initProps cfg) initValues)
         [Dispatch (sample_start caller key)] = (tr1, Rejected e) ->
       onError (options_of cfg) = Some h ->
       get_isInvalidReturnError e = inr false ->
       exists tr' v,
         sample_run Component initValues key caller getState []
         = (tr', Returned (Fulfilled v))
         /\ onError_calls tr' = [e]
         /\ end_count tr' = 1).
Proof.
  intros Hclaim.
  destruct
    (Hclaim (failing_component (Some (throwing_handler handler_failed)))
       sample_values sample_key (Some "willReceiveProps") init_self_state
       (failing_config (Some (throwing_handler handler_failed)))
       init_self_state only_initAction
       [Dispatch (sample_start (Some "willReceiveProps") sample_key);
        Call InitAction sample_props]
       boom (throwing_handler handler_failed)
       (failing_component_valid _) eq_refl eq_refl eq_refl)
    as (tr' & v & Hrun & _).
  discriminate Hrun.
Qed.

(** C3: an [initAction] that returns [undefined], on a component with an
    [onError] handler.  Reading [then] off the returned value throws a
    [TypeError], which is not flagged: it is handed to the handler and the
    call resolves, where the claim asks for the flagged error, rejected to
    the caller. *)
Theorem undefined_return_reaches_handler :
  sample_run (plain_component VUndefined (Some quiet_handler)) sample_values
    sample_key (Some "willReceiveProps") init_self_state []
  = ([Dispatch (sample_start (Some "willReceiveProps") sample_key);
      Call InitAction sample_props;
      OnError (TypeError_read "then" VUndefined);
      Dispatch (sample_end (Some "willReceiveProps") sample_key)],
     Returned (Fulfilled VUndefined)).
Proof. reflexivity. Qed.

(** With a number in place of [undefined] the flagged error comes out as
    the claim says. *)
Lemma number_return_is_propagated :
  sample_run (plain_component (VNumber 5) (Some quiet_handler)) sample_values
    sample_key (Some "willReceiveProps") init_self_state []
  = ([Dispatch (sample_start (Some "willReceiveProps") sample_key);
      Call InitAction sample_props;
      Dispatch (sample_end (Some "willReceiveProps") sample_key)],
     Returned
       (Rejected
          (InvalidActionReturn "initAction"
             (sample_config (Some (returns_plain (VNumber 5))) None
                (sample_options (Some quiet_handler) INIT_SELF_ASYNC false))
             (VNumber 5)))).
Proof. reflexivity. Qed.

(** A rejection with [undefined], on a component with a handler: reading
    [isInvalidReturnError] off it throws inside the [catch] callback, so
    the handler is not called and no end notification is dispatched. *)
Lemma undefined_rejection_skips_handler :
  sample_run
    (sample_component (Some (rejects_with VUndefined)) None
       (sample_options (Some quiet_handler) INIT_SELF_ASYNC false))
    sample_values sample_key (Some "willReceiveProps") init_self_state []
  = ([Dispatch (sample_start (Some "willReceiveProps") sample_key);
      Call InitAction sample_props],
     Returned (Rejected (TypeError_read "isInvalidReturnError" VUndefined))).
Proof. reflexivity. Qed.

(** ** The further properties on sample components *)

Lemma thrown_is_validation_failure_witness :
  @nil event = []
  /\ validation_fails zip_props sample_stringify sample_encode strict_component
       sample_values sample_key (Some "willMount") (prepare_state ∅)
       (PreparationMissing zip_props sample_stringify sample_encode strict_config
          sample_values).
Proof.
  apply (thrown_is_validation_failure zip_props sample_stringify sample_encode
           "INIT" strict_component sample_values sample_key (Some "willMount")
           (prepare_state ∅)).
  reflexivity.
Defined.

Lemma prepared_key_is_not_prepared_again_witness :
  sample_run strict_component sample_values sample_key (Some "prepareComponent")
    (prepare_state {[ sample_key := false ]}) []
  = ([], Returned (Fulfilled VUndefined)).
Proof.
  apply (prepared_key_is_not_prepared_again zip_props sample_stringify
           sample_encode "INIT" strict_component strict_config
           (prepare_state {[ sample_key := false ]}) sample_values sample_key
           (prepare_state {[ sample_key := false ]}) [] false);
    reflexivity.
Defined.

Lemma strict_willMount_runs_nothing_witness :
  sample_run strict_component sample_values sample_key (Some "willMount")
    (prepare_state {[ sample_key := true ]}) []
  = ([], Returned (Fulfilled VUndefined)).
Proof.
  exact (strict_willMount_runs_nothing zip_props sample_stringify sample_encode
           "INIT" strict_component strict_config
           (prepare_state {[ sample_key := true ]}) sample_values sample_key
           (prepare_state {[ sample_key := true ]}) []
           eq_refl eq_refl eq_refl eq_refl).
Defined.

Lemma initSelf_never_skips_mount_init_witness :
  sample_run never_component sample_values sample_key (Some "didMount")
    init_self_state []
  = ([], Returned (Fulfilled VUndefined)).
Proof.
  apply (initSelf_never_skips_mount_init zip_props sample_stringify sample_encode
           "INIT" never_component never_config init_self_state sample_values
           sample_key (Some "didMount") init_self_state []);
    try reflexivity.
  right. reflexivity.
Defined.

Lemma willReceiveProps_always_calls_initAction_witness :
  exists rest,
    fst (sample_run never_component sample_values sample_key
           (Some "willReceiveProps") (prepare_state ∅) [])
    = [] ++ Dispatch (sample_start (Some "willReceiveProps") sample_key)
         :: Call InitAction sample_props :: rest.
Proof.
  apply (willReceiveProps_always_calls_initAction zip_props sample_stringify
           sample_encode "INIT" never_component never_config (prepare_state ∅)
           sample_values sample_key (prepare_state ∅) [] (resolves_with VNull));
    reflexivity.
Defined.

Lemma client_action_not_called_on_prepare_or_willMount_witness :
  exists evs,
    fst (sample_run both_component sample_values sample_key (Some "willMount")
           init_self_state []) = [] ++ evs
    /\ forall props, ~ In (Call InitActionClient props) evs.
Proof.
  apply (client_action_not_called_on_prepare_or_willMount zip_props
           sample_stringify sample_encode "INIT").
  right. reflexivity.
Defined.

Lemma failed_initAction_stops_initActionClient_witness :
  exists tail,
    fst (sample_run (failing_component None) sample_values sample_key
           (Some "willReceiveProps") init_self_state [])
    = [] ++ Dispatch (sample_start (Some "willReceiveProps") sample_key)
         :: Call InitAction sample_props :: tail
    /\ calls tail = [].
Proof.
  apply (failed_initAction_stops_initActionClient zip_props sample_stringify
           sample_encode "INIT" (failing_component None) (failing_config None)
           init_self_state sample_values sample_key (Some "willReceiveProps")
           init_self_state only_initAction [] (rejects_with boom)).
  - apply failing_component_valid.
  - reflexivity.
  - reflexivity.
  - intros v. discriminate.
Defined.

Lemma pending_actions_leave_the_call_pending_witness :
  sample_run hanging_component sample_values sample_key (Some "willReceiveProps")
    init_self_state []
  = ([Dispatch (sample_start (Some "willReceiveProps") sample_key);
      Call InitAction sample_props],
     Returned Pending).
Proof.
  apply (pending_actions_leave_the_call_pending zip_props sample_stringify
           sample_encode "INIT" hanging_component hanging_config init_self_state
           sample_values sample_key (Some "willReceiveProps") init_self_state
           only_initAction []).
  - repeat split; reflexivity.
  - reflexivity.
Defined.

Lemma plain_return_is_propagated_witness :
  sample_run (plain_component (VString "done") None) sample_values sample_key
    (Some "willReceiveProps") init_self_state []
  = ([] ++ [Dispatch (sample_start (Some "willReceiveProps") sample_key);
            Call InitAction sample_props;
            Dispatch (sample_end (Some "willReceiveProps") sample_key)],
     Returned
       (Rejected
          (InvalidActionReturn "initAction"
             (sample_config (Some (returns_plain (VString "done"))) None
                (sample_options None INIT_SELF_ASYNC false))
             (VString "done")))).
Proof.
  apply (plain_return_is_propagated zip_props sample_stringify sample_encode
           "INIT" (plain_component (VString "done") None)
           (sample_config (Some (returns_plain (VString "done"))) None
              (sample_options None INIT_SELF_ASYNC false))
           init_self_state sample_values sample_key (Some "willReceiveProps")
           init_self_state only_initAction [] (returns_plain (VString "done"))
           (VString "done")).
  - repeat split; reflexivity.
  - reflexivity.
  - reflexivity.
  - reflexivity.
  - reflexivity.
Defined.

Lemma client_plain_return_is_propagated_witness :
  sample_run client_plain_component sample_values sample_key (Some "didMount")
    init_self_state []
  = ([Dispatch (sample_start (Some "didMount") sample_key);
      Call InitAction sample_props;
      Resolved InitAction (VString "P")]
       ++ [Call InitActionClient sample_props;
           Dispatch (sample_end (Some "didMount") sample_key)],
     Returned
       (Rejected (InvalidActionReturn "initAction.client" client_plain_config
                    (VNumber 5)))).
Proof.
  apply (client_plain_return_is_propagated zip_props sample_stringify
           sample_encode "INIT" client_plain_component client_plain_config
           init_self_state sample_values sample_key (Some "didMount")
           init_self_state both_actions []
           [Dispatch (sample_start (Some "didMount") sample_key);
            Call InitAction sample_props;
            Resolved InitAction (VString "P")]
           (returns_plain (VNumber 5)) (VString "P") (VNumber 5)).
  - repeat split; reflexivity.
  - reflexivity.
  - reflexivity.
  - reflexivity.
  - reflexivity.
  - reflexivity.
Defined.

Lemma nullish_return_is_an_unflagged_TypeError_witness :
  sample_run (plain_component VNull (Some quiet_handler)) sample_values sample_key
    (Some "willReceiveProps") init_self_state []
  = ([] ++ [Dispatch (sample_start (Some "willReceiveProps") sample_key);
            Call InitAction sample_props;
            OnError (TypeError_read "then" VNull);
            Dispatch (sample_end (Some "willReceiveProps") sample_key)],
     Returned (Fulfilled VUndefined)).
Proof.
  refine (proj2
            (nullish_return_is_an_unflagged_TypeError zip_props sample_stringify
               sample_encode "INIT" (plain_component VNull (Some quiet_handler))
               (sample_config (Some (returns_plain VNull)) None
                  (sample_options (Some quiet_handler) INIT_SELF_ASYNC false))
               init_self_state sample_values sample_key
               (Some "willReceiveProps") init_self_state only_initAction []
               (returns_plain VNull) VNull _ eq_refl eq_refl eq_refl eq_refl)
            quiet_handler eq_refl eq_refl).
  repeat split; reflexivity.
Defined.

Lemma PrepareValidationError_link_lists_meta_witness :
  exists msg,
    PrepareValidationError sample_encode "not prepared" (Some "E1")
      (Some [("c", VString "Sample"); ("n", VNumber 7)])
    = VError PrepareValidationErrorC msg false
    /\ includes msg (ERROR_BASE_URL +:+ "E1" +:+ ".html#")
    /\ includes msg ("n" +:+ "=" +:+ sample_encode (VNumber 7)).
Proof.
  apply (PrepareValidationError_link_lists_meta sample_encode "not prepared" "E1"
           [("c", VString "Sample"); ("n", VNumber 7)] "n" (VNumber 7)).
  - discriminate.
  - right. left. reflexivity.
Defined.

Lemma run_actions_primary_fails_witness :
  run_actions (failing_config None) only_initAction sample_props []
  = ([] ++ [Call InitAction sample_props], Rejected boom)
  /\ run_actions
       (sample_config (Some (throws_with boom)) None
          (sample_options None INIT_SELF_ASYNC false))
       only_initAction sample_props []
     = ([] ++ [Call InitAction sample_props], Rejected boom).
Proof.
  split.
  - apply (run_actions_primary_fails (failing_config None) only_initAction
             sample_props [] (rejects_with boom) boom eq_refl eq_refl).
    right. reflexivity.
  - apply (run_actions_primary_fails
             (sample_config (Some (throws_with boom)) None
                (sample_options None INIT_SELF_ASYNC false))
             only_initAction sample_props [] (throws_with boom) boom eq_refl eq_refl).
    left. reflexivity.
Defined.
